(** * Beverage inventory and sales: the [DrinkDatabase] class of task_2.py

    A shallow embedding of the database layer of the drinks application
    and of the three dialog handlers that guard its calls.

    Modelling conventions.
    - Python [int] and the SQLite INTEGER columns are [Z].
    - Python [float] and the SQLite REAL columns are exact rationals [Q]:
      rounding error, infinities and NaN of IEEE doubles are left out.
      Equality of computed rationals is stated with [==].  Two limits of
      this convention are kept out of the statements below.  First,
      [round(x, 1)] is [round1], which rounds the exact quotient and sends
      an exact tie to the even tenth; the doubles of the program may reach
      the other neighbouring tenth at such a tie (7 ml at 5 % with 13 ml
      at 0 % gives 1.7 there and 1.8 here), so the properties of the
      blended strength say "a whole number of tenths within 1/20 of the
      exact blend" ([tenth_near]) and not "equal to [round1] of it".
      Second, a unit volume of [inf] makes the unit count of a sale NaN
      and the UPDATE fail with [sqlite3.IntegrityError]; [floordiv] and
      [update_quantity] have no such path, so what is said of an exception
      of [sell_cocktail] is what follows from its being raised, and not
      that only a division by zero can be raised.
    - A table is the list of its rows in insertion (rowid) order, which is
      the order of a SELECT that scans the table.  The recipe lines of one
      cocktail are not read by a scan: SQLite answers
      [WHERE r.cocktail_id = ?] through the index of the primary key
      [(cocktail_id, ingredient_id)], so they come back in ascending
      [ingredient_id] ([index_order]).  PRIMARY KEY and UNIQUE are checked
      by the INSERT statements; the FOREIGN KEY clauses of the schema are
      not enforced, since the connection never turns [foreign_keys] on.
    - A Python [dict] is an association list in insertion order, with
      assignment to an existing key overwriting in place.
    - Every method runs in a state and error monad over the world: the
      database and the log of message boxes shown so far.
    - [datetime.now()] is an argument [now] of the two selling methods. *)

From Stdlib Require Import ZArith QArith Qround Qabs List String Bool Lia Lqa.
From Stdlib Require Import Sorting.Permutation Sorting.Sorted.
Import ListNotations.

Local Open Scope string_scope.
Local Open Scope list_scope.
Local Open Scope Z_scope.

(** ** Python values *)

(** [dict]: a list of items in insertion order; [dict_set d k v] is
    [d[k] = v]. *)
Section Dict.
Context {K V : Type} (eqb : K -> K -> bool).

Fixpoint dict_set (d : list (K * V)) (k : K) (v : V) : list (K * V) :=
  match d with
  | [] => [(k, v)]
  | (k', v') :: d' =>
      if eqb k' k then (k', v) :: d' else (k', v') :: dict_set d' k v
  end.
End Dict.

(** [a < b] and [a > b] on floats. *)
Definition Qltb (a b : Q) : bool := negb (Qle_bool b a).
Definition Qgtb (a b : Q) : bool := Qltb b a.

(** [round(x)] to the nearest integer, ties to the even one. *)
Definition round_half_even (x : Q) : Z :=
  let f := Qfloor x in
  match Qcompare (x - inject_Z f) (1 # 2) with
  | Lt => f
  | Gt => f + 1
  | Eq => if Z.even f then f else f + 1
  end.

(** [round(x, 1)] of the exact value [x]; an exact tie goes to the even
    tenth.  The program rounds a double, which at such a tie may lie on
    either side of it, so the properties of the blended strength are
    stated with [tenth_near]. *)
Definition round1 (x : Q) : Q := inject_Z (round_half_even (x * 10)) / 10.

(** ** The schema ([_create_tables]) *)

Record ingredients_row := mk_ingredients_row {
  ing_id : Z;
  ing_name : string;
  ing_alcohol_percent : Q;
  ing_volume_ml : Q;
  ing_quantity : Z;
  ing_price_per_unit : Q
}.

Record cocktails_row := mk_cocktails_row {
  ck_id : Z;
  ck_name : string;
  ck_price : Q
}.

Record recipes_row := mk_recipes_row {
  rc_cocktail_id : Z;
  rc_ingredient_id : Z;
  rc_volume_ml : Q
}.

Record sales_row := mk_sales_row {
  sl_id : Z;
  sl_item_type : string;
  sl_item_id : Z;
  sl_quantity : Q;
  sl_total_price : Q;
  sl_date : string
}.

Record DB := mk_DB {
  ingredients : list ingredients_row;
  cocktails : list cocktails_row;
  recipes : list recipes_row;
  sales : list sales_row
}.

(** The database right after [_create_tables] on a new file. *)
Definition empty_db : DB := mk_DB [] [] [] [].

(** ** The dataclass [Ingredient] and the dictionaries returned by reads *)

Module Ingredient.
Record t := mk {
  id : option Z;
  name : string;
  alcohol_percent : Q;
  volume_ml : Q;
  quantity : Z;
  price_per_unit : Q
}.

Definition total_volume (self : t) : Q :=
  (volume_ml self * inject_Z (quantity self))%Q.

Definition of_row (row : ingredients_row) : t :=
  mk (Some (ing_id row)) (ing_name row) (ing_alcohol_percent row)
     (ing_volume_ml row) (ing_quantity row) (ing_price_per_unit row).
End Ingredient.

(** The dictionary built by [get_cocktail_by_id] ([K := Z], recipe keyed by
    ingredient id) and by [get_all_cocktails] ([K := string], keyed by
    ingredient name). *)
Record CocktailView (K : Type) := mk_CocktailView {
  cv_id : Z;
  cv_name : string;
  cv_price : Q;
  cv_recipe : list (K * Q);
  cv_alcohol_percent : Q;
  cv_volume : Q
}.
Arguments mk_CocktailView {K}.
Arguments cv_id {K}.
Arguments cv_name {K}.
Arguments cv_price {K}.
Arguments cv_recipe {K}.
Arguments cv_alcohol_percent {K}.
Arguments cv_volume {K}.

(** ** Messages, message boxes and exceptions *)

Inductive Msg :=
| MsgCocktailNotFound                       (* "Коктейль не найден" *)
| MsgIngredientIdNotFound (ing_id : Z)      (* "Ингредиент ID {ing_id} не найден" *)
| MsgOutOfStock (name : string)             (* "Нет {name} на складе" *)
| MsgNotEnoughVolume (name : string) (need_vol available_vol : Q)
                                            (* "Недостаточно {name}. Нужно ..мл, есть ..мл" *)
| MsgAvailable                              (* "Доступен" *)
| MsgIngredientNotFound                     (* "Ингредиент не найден" *)
| MsgNotEnoughUnits (name : string) (have requested : Z)
                                            (* "Недостаточно {name}. Есть .., запрошено .." *)
| MsgRestocked (quantity : Z) (name : string) (* "Добавлено {quantity} ед. {name}" *)
| MsgIngredientExists (name : string)       (* "Ингредиент '{name}' уже существует" *)
| MsgCocktailExists (name : string)         (* "Коктейль '{name}' уже существует" *)
| MsgQuantityMustBePositive                 (* "Количество должно быть положительным" *)
| MsgFillNameAndRecipe                      (* "Заполните название и рецепт" *)
| MsgCocktailAdded                          (* "Коктейль добавлен" *)
| MsgSaleDone                               (* "Продажа выполнена" *)
| MsgCheckInput                             (* "Проверьте ввод" *)
| MsgCheckNumbers                           (* "Проверьте ввод чисел" *)
| MsgStrOfException.                        (* str(e) *)

Inductive MessageBox :=
| showerror (message : Msg)
| showinfo (message : Msg).

Inductive Exn :=
| IntegrityError                 (* sqlite3.IntegrityError *)
| ValueError (message : Msg)
| ZeroDivisionError              (* float floor division by zero *)
| AttributeError.                (* attribute access on None *)

(** ** The monad *)

Record World := mk_World {
  db : DB;
  boxes : list MessageBox
}.

Inductive Outcome (A : Type) :=
| Return (a : A)
| Raise (e : Exn).
Arguments Return {A}.
Arguments Raise {A}.

Definition M (A : Type) : Type := World -> World * Outcome A.

Definition ret {A} (a : A) : M A := fun w => (w, Return a).
Definition raise {A} (e : Exn) : M A := fun w => (w, Raise e).
Definition bind {A B} (m : M A) (k : A -> M B) : M B :=
  fun w => match m w with
           | (w', Return a) => k a w'
           | (w', Raise e) => (w', Raise e)
           end.

Notation "x <- m ;; k" := (bind m (fun x => k))
  (at level 61, m at next level, right associativity).
Notation "' pat <- m ;; k" := (bind m (fun x => match x with pat => k end))
  (at level 61, pat pattern, m at next level, right associativity).
Notation "m ;;; k" := (bind m (fun _ => k))
  (at level 61, right associativity).

(** [try: m except: h]. *)
Definition try_except {A} (m : M A) (h : Exn -> M A) : M A :=
  fun w => match m w with
           | (w', Return a) => (w', Return a)
           | (w', Raise e) => h e w'
           end.

Definition gets {A} (f : DB -> A) : M A := fun w => (w, Return (f (db w))).
Definition modify (f : DB -> DB) : M unit :=
  fun w => (mk_World (f (db w)) (boxes w), Return tt).
Definition messagebox (b : MessageBox) : M unit :=
  fun w => (mk_World (db w) (boxes w ++ [b]), Return tt).

(** [for x in xs: body x]. *)
Fixpoint for_each {X} (xs : list X) (body : X -> M unit) : M unit :=
  match xs with
  | [] => ret tt
  | x :: xs' => body x ;;; for_each xs' body
  end.

(** [for x in xs: body x], where [body] may [return] a value out of the
    enclosing function ([Some]); [None] means the loop ran to its end. *)
Fixpoint for_return {X R} (xs : list X) (body : X -> M (option R))
  : M (option R) :=
  match xs with
  | [] => ret None
  | x :: xs' =>
      r <- body x ;;
      match r with
      | Some v => ret (Some v)
      | None => for_return xs' body
      end
  end.

(** [for x in xs: out.append(body x)]. *)
Fixpoint for_collect {X Y} (xs : list X) (body : X -> M Y) : M (list Y) :=
  match xs with
  | [] => ret []
  | x :: xs' =>
      y <- body x ;;
      ys <- for_collect xs' body ;;
      ret (y :: ys)
  end.

Definition run {A} (m : M A) (d : DB) : World * Outcome A :=
  m (mk_World d []).

(** ** SQL statements *)

(** [self.conn.commit()].  All reads go through the one connection that
    made the writes, so they see them committed or not. *)
Definition commit : M unit := ret tt.

(** The rowid an AUTOINCREMENT key gives to the next row.  No statement of
    the program deletes rows, so the largest rowid ever used is the largest
    one in the table. *)
Definition next_rowid (ids : list Z) : Z := fold_right Z.max 0 ids + 1.

Definition set_ingredients (d : DB) (rows : list ingredients_row) : DB :=
  mk_DB rows (cocktails d) (recipes d) (sales d).
Definition set_cocktails (d : DB) (rows : list cocktails_row) : DB :=
  mk_DB (ingredients d) rows (recipes d) (sales d).
Definition set_recipes (d : DB) (rows : list recipes_row) : DB :=
  mk_DB (ingredients d) (cocktails d) rows (sales d).
Definition set_sales (d : DB) (rows : list sales_row) : DB :=
  mk_DB (ingredients d) (cocktails d) (recipes d) rows.

(** INSERT INTO ingredients (name, alcohol_percent, volume_ml, quantity,
    price_per_unit) VALUES (?, ?, ?, ?, ?); the result is [lastrowid]. *)
Definition insert_ingredient (name : string) (alcohol_percent volume_ml : Q)
    (quantity : Z) (price_per_unit : Q) : M Z :=
  rows <- gets ingredients ;;
  if existsb (fun r => String.eqb (ing_name r) name) rows
  then raise IntegrityError
  else
    let rowid := next_rowid (map ing_id rows) in
    modify (fun d => set_ingredients d
      (ingredients d ++ [mk_ingredients_row rowid name alcohol_percent
                           volume_ml quantity price_per_unit])) ;;;
    ret rowid.

(** INSERT INTO cocktails (name, price) VALUES (?, ?). *)
Definition insert_cocktail (name : string) (price : Q) : M Z :=
  rows <- gets cocktails ;;
  if existsb (fun r => String.eqb (ck_name r) name) rows
  then raise IntegrityError
  else
    let rowid := next_rowid (map ck_id rows) in
    modify (fun d => set_cocktails d
      (cocktails d ++ [mk_cocktails_row rowid name price])) ;;;
    ret rowid.

(** INSERT INTO recipes (cocktail_id, ingredient_id, volume_ml)
    VALUES (?, ?, ?). *)
Definition insert_recipe (cocktail_id ing_id : Z) (volume : Q) : M unit :=
  rows <- gets recipes ;;
  if existsb (fun r => (rc_cocktail_id r =? cocktail_id)
                       && (rc_ingredient_id r =? ing_id)) rows
  then raise IntegrityError
  else modify (fun d => set_recipes d
         (recipes d ++ [mk_recipes_row cocktail_id ing_id volume])).

(** INSERT INTO sales (item_type, item_id, quantity, total_price, date)
    VALUES (?, ?, ?, ?, ?). *)
Definition insert_sale (item_type : string) (item_id : Z)
    (quantity total_price : Q) (date : string) : M unit :=
  modify (fun d => set_sales d
    (sales d ++ [mk_sales_row (next_rowid (map sl_id (sales d))) item_type
                   item_id quantity total_price date])).

(** UPDATE ingredients SET quantity = quantity + ? WHERE id=?; the result
    is [rowcount].  The bound value is a number; a NaN, which SQLite binds
    as NULL and the NOT NULL column refuses, is left out with the other
    non-finite floats. *)
Definition update_quantity_row (delta ing_id' : Z) (r : ingredients_row)
  : ingredients_row :=
  if ing_id r =? ing_id'
  then mk_ingredients_row (ing_id r) (ing_name r) (ing_alcohol_percent r)
         (ing_volume_ml r) (ing_quantity r + delta) (ing_price_per_unit r)
  else r.

Definition update_quantity (delta ing_id' : Z) : M Z :=
  rows <- gets ingredients ;;
  modify (fun d => set_ingredients d
    (map (update_quantity_row delta ing_id') (ingredients d))) ;;;
  ret (Z.of_nat (List.length (filter (fun r => ing_id r =? ing_id') rows))).

(** SELECT * FROM ingredients WHERE id=?, then [fetchone()]. *)
Definition select_ingredient (ing_id' : Z) (d : DB) : option ingredients_row :=
  find (fun r => ing_id r =? ing_id') (ingredients d).

(** SELECT * FROM cocktails WHERE id=?, then [fetchone()]. *)
Definition select_cocktail (cocktail_id : Z) (d : DB) : option cocktails_row :=
  find (fun r => ck_id r =? cocktail_id) (cocktails d).

(** The rows of a search through an index on an integer column: ascending
    in the key (insertion sort; rows with equal keys keep their order). *)
Section IndexOrder.
Context {R : Type} (key : R -> Z).

Fixpoint insert_by_key (x : R) (l : list R) : list R :=
  match l with
  | [] => [x]
  | y :: l' => if key x <=? key y then x :: l
               else y :: insert_by_key x l'
  end.

Definition index_order (l : list R) : list R := fold_right insert_by_key [] l.
End IndexOrder.

(** The rows of [recipes] with [cocktail_id = ?], found through the index
    of the primary key [(cocktail_id, ingredient_id)]: in ascending
    [ingredient_id], whatever the order of their insertion. *)
Definition select_recipe_lines (cocktail_id : Z) (d : DB) : list recipes_row :=
  index_order rc_ingredient_id
    (filter (fun r => rc_cocktail_id r =? cocktail_id) (recipes d)).

(** SELECT ... FROM recipes r JOIN ingredients i ON r.ingredient_id = i.id
    WHERE r.cocktail_id = ?: an inner join, so a recipe line whose
    ingredient is not in the table gives no row.  The recipe lines are the
    outer loop of the join, so the rows come in ascending [ingredient_id]. *)
Definition select_recipe_join (cocktail_id : Z) (d : DB)
  : list (recipes_row * ingredients_row) :=
  flat_map
    (fun r => map (pair r)
                (filter (fun i => rc_ingredient_id r =? ing_id i)
                        (ingredients d)))
    (select_recipe_lines cocktail_id d).

(** ORDER BY name: insertion sort on the byte order of the names. *)
Section OrderBy.
Context {R : Type} (key : R -> string).

Fixpoint insert_by (x : R) (l : list R) : list R :=
  match l with
  | [] => [x]
  | y :: l' => if String.leb (key x) (key y) then x :: l
               else y :: insert_by x l'
  end.

Definition order_by (l : list R) : list R := fold_right insert_by [] l.
End OrderBy.

(** ** The methods of [DrinkDatabase] *)

Definition add_ingredient (ingredient : Ingredient.t) : M Z :=
  try_except
    (rowid <- insert_ingredient (Ingredient.name ingredient)
                (Ingredient.alcohol_percent ingredient)
                (Ingredient.volume_ml ingredient)
                (Ingredient.quantity ingredient)
                (Ingredient.price_per_unit ingredient) ;;
     commit ;;;
     ret rowid)
    (fun e => match e with
              | IntegrityError =>
                  raise (ValueError
                           (MsgIngredientExists (Ingredient.name ingredient)))
              | _ => raise e
              end).

Definition get_all_ingredients : M (list Ingredient.t) :=
  rows <- gets (fun d => order_by ing_name (ingredients d)) ;;
  ret (map Ingredient.of_row rows).

Definition get_ingredient_by_id (ing_id' : Z) : M (option Ingredient.t) :=
  row <- gets (select_ingredient ing_id') ;;
  match row with
  | Some row => ret (Some (Ingredient.of_row row))
  | None => ret None
  end.

Definition update_ingredient_quantity (ing_id' delta : Z) : M bool :=
  rowcount <- update_quantity delta ing_id' ;;
  commit ;;;
  ret (0 <? rowcount).

Definition add_cocktail (name : string) (price : Q) (recipe : list (Z * Q))
  : M Z :=
  try_except
    (cocktail_id <- insert_cocktail name price ;;
     for_each recipe (fun '(ing_id', volume) =>
       insert_recipe cocktail_id ing_id' volume) ;;;
     commit ;;;
     ret cocktail_id)
    (fun e => match e with
              | IntegrityError => raise (ValueError (MsgCocktailExists name))
              | _ => raise e
              end).

(** The loop over the joined rows in [get_all_cocktails]: the accumulators
    are [total_alcohol], [total_volume] and [recipe_dict]. *)
Definition all_cocktails_step (acc : Q * Q * list (string * Q))
    (r : recipes_row * ingredients_row) : Q * Q * list (string * Q) :=
  let '(total_alcohol, total_volume, recipe_dict) := acc in
  let vol := rc_volume_ml (fst r) in
  let alcohol := ing_alcohol_percent (snd r) in
  ((total_alcohol + vol * alcohol / 100)%Q,
   (total_volume + vol)%Q,
   dict_set String.eqb recipe_dict (ing_name (snd r)) vol).

Definition get_all_cocktails : M (list (CocktailView string)) :=
  rows <- gets (fun d => order_by ck_name (cocktails d)) ;;
  for_collect rows (fun row =>
    recipe <- gets (select_recipe_join (ck_id row)) ;;
    let '(total_alcohol, total_volume, recipe_dict) :=
      fold_left all_cocktails_step recipe (0%Q, 0%Q, []) in
    let alcohol_percent :=
      if Qgtb total_volume 0 then (total_alcohol / total_volume * 100)%Q
      else 0%Q in
    ret (mk_CocktailView (ck_id row) (ck_name row) (ck_price row)
           recipe_dict (round1 alcohol_percent) total_volume)).

(** The loop over the joined rows in [get_cocktail_by_id]: the accumulators
    are [recipe], [total_alcohol] and [total_volume]. *)
Definition cocktail_by_id_step (acc : list (Z * Q) * Q * Q)
    (r : recipes_row * ingredients_row) : list (Z * Q) * Q * Q :=
  let '(recipe, total_alcohol, total_volume) := acc in
  (dict_set Z.eqb recipe (ing_id (snd r)) (rc_volume_ml (fst r)),
   (total_alcohol
    + rc_volume_ml (fst r) * ing_alcohol_percent (snd r) / 100)%Q,
   (total_volume + rc_volume_ml (fst r))%Q).

Definition get_cocktail_by_id (cocktail_id : Z) : M (option (CocktailView Z)) :=
  row <- gets (select_cocktail cocktail_id) ;;
  match row with
  | None => ret None
  | Some row =>
      recipe_rows <- gets (select_recipe_join cocktail_id) ;;
      let '(recipe, total_alcohol, total_volume) :=
        fold_left cocktail_by_id_step recipe_rows ([], 0%Q, 0%Q) in
      let alcohol_percent :=
        if Qgtb total_volume 0 then (total_alcohol / total_volume * 100)%Q
        else 0%Q in
      ret (Some (mk_CocktailView (ck_id row) (ck_name row) (ck_price row)
                   recipe (round1 alcohol_percent) total_volume))
  end.

(** The body of the loop of [check_cocktail_availability]: [Some] is a
    [return] out of the method, [None] goes on to the next line. *)
Definition check_line (line : Z * Q) : M (option (bool * Msg)) :=
  let '(ing_id', need_vol) := line in
  ing <- get_ingredient_by_id ing_id' ;;
  match ing with
  | None => ret (Some (false, MsgIngredientIdNotFound ing_id'))
  | Some ing =>
      if Ingredient.quantity ing <=? 0
      then ret (Some (false, MsgOutOfStock (Ingredient.name ing)))
      else
        let available_vol :=
          (inject_Z (Ingredient.quantity ing) * Ingredient.volume_ml ing)%Q in
        if Qltb available_vol need_vol
        then ret (Some (false, MsgNotEnoughVolume (Ingredient.name ing)
                                 need_vol available_vol))
        else ret None
  end.

Definition check_cocktail_availability (cocktail_id : Z) : M (bool * Msg) :=
  cocktail <- get_cocktail_by_id cocktail_id ;;
  match cocktail with
  | None => ret (false, MsgCocktailNotFound)
  | Some cocktail =>
      r <- for_return (cv_recipe cocktail) check_line ;;
      match r with
      | Some result => ret result
      | None => ret (true, MsgAvailable)
      end
  end.

(** [a // b] on finite floats; the quotient is a float with an integer
    value.  ([inf // inf] is NaN, which the conventions leave out.) *)
Definition floordiv (a b : Q) : M Z :=
  if Qeq_bool b 0 then raise ZeroDivisionError else ret (Qfloor (a / b)).

(** [(need_vol + ing.volume_ml - 1) // ing.volume_ml]. *)
Definition units_needed (need_vol volume_ml : Q) : M Z :=
  floordiv (need_vol + volume_ml - 1)%Q volume_ml.

(** The body of the depletion loop of [sell_cocktail]. *)
Definition deplete_line (line : Z * Q) : M unit :=
  let '(ing_id', need_vol) := line in
  ing <- get_ingredient_by_id ing_id' ;;
  match ing with
  | None => raise AttributeError
  | Some ing =>
      units <- units_needed need_vol (Ingredient.volume_ml ing) ;;
      update_ingredient_quantity ing_id' (- units) ;;;
      ret tt
  end.

Definition sell_cocktail (now : string) (cocktail_id : Z) : M bool :=
  cocktail <- get_cocktail_by_id cocktail_id ;;
  match cocktail with
  | None =>
      messagebox (showerror MsgCocktailNotFound) ;;;
      ret false
  | Some cocktail =>
      '(available, msg) <- check_cocktail_availability cocktail_id ;;
      if negb available
      then messagebox (showerror msg) ;;; ret false
      else
        for_each (cv_recipe cocktail) deplete_line ;;;
        insert_sale "cocktail" cocktail_id 1 (cv_price cocktail) now ;;;
        commit ;;;
        ret true
  end.

Definition sell_ingredient (now : string) (ing_id' quantity : Z) : M bool :=
  ing <- get_ingredient_by_id ing_id' ;;
  match ing with
  | None =>
      messagebox (showerror MsgIngredientNotFound) ;;;
      ret false
  | Some ing =>
      if Ingredient.quantity ing <? quantity
      then
        messagebox (showerror (MsgNotEnoughUnits (Ingredient.name ing)
                                 (Ingredient.quantity ing) quantity)) ;;;
        ret false
      else
        let total_price :=
          (inject_Z quantity * Ingredient.price_per_unit ing)%Q in
        update_ingredient_quantity ing_id' (- quantity) ;;;
        insert_sale "ingredient" ing_id' (inject_Z quantity) total_price now ;;;
        commit ;;;
        ret true
  end.

Definition restock_ingredient (ing_id' quantity : Z) : M bool :=
  ing <- get_ingredient_by_id ing_id' ;;
  match ing with
  | None =>
      messagebox (showerror MsgIngredientNotFound) ;;;
      ret false
  | Some ing =>
      update_ingredient_quantity ing_id' quantity ;;;
      messagebox (showinfo (MsgRestocked quantity (Ingredient.name ing))) ;;;
      ret true
  end.

(** ** The dialog handlers of [DrinkApp] that guard the calls

    The arguments are the values the handler has parsed from its entry
    widgets; refreshing the tables and closing the dialog are left out. *)

(** [restock] in [restock_dialog]. *)
Definition restock_dialog_restock (ing_id' quantity : Z) : M unit :=
  try_except
    (if quantity <=? 0
     then messagebox (showerror MsgQuantityMustBePositive)
     else restock_ingredient ing_id' quantity ;;; ret tt)
    (fun _ => messagebox (showerror MsgCheckInput)).

(** [sell] in [sell_ingredient_dialog]. *)
Definition sell_ingredient_dialog_sell (now : string) (ing_id' quantity : Z)
  : M unit :=
  try_except
    (if quantity <=? 0
     then messagebox (showerror MsgQuantityMustBePositive)
     else
       sold <- sell_ingredient now ing_id' quantity ;;
       if sold then messagebox (showinfo MsgSaleDone) else ret tt)
    (fun _ => messagebox (showerror MsgCheckInput)).

(** [save] in [add_cocktail_dialog]. *)
Definition add_cocktail_dialog_save (name : string) (price : Q)
    (recipe : list (Z * Q)) : M unit :=
  try_except
    (if String.eqb name "" || match recipe with [] => true | _ => false end
     then messagebox (showerror MsgFillNameAndRecipe)
     else
       add_cocktail name price recipe ;;;
       messagebox (showinfo MsgCocktailAdded))
    (fun e => match e with
              | ValueError _ => messagebox (showerror MsgCheckNumbers)
              | _ => messagebox (showerror MsgStrOfException)
              end).

(** * Vocabulary of the properties *)

(** The quantity on hand of ingredient [j], as [get_ingredient_by_id]
    reads it. *)
Definition on_hand (d : DB) (j : Z) : option Z :=
  option_map ing_quantity (select_ingredient j d).

(** Example databases. *)
Definition rum_db : DB :=
  mk_DB [mk_ingredients_row 1 "Rum" 40 700 12 20] [] [] [].

Definition mojito_db : DB :=
  mk_DB [mk_ingredients_row 1 "Rum" 40 700 12 20;
         mk_ingredients_row 2 "Soda" 0 50 10 5]
        [mk_cocktails_row 1 "Mojito" 300]
        [mk_recipes_row 1 1 100; mk_recipes_row 1 2 50]
        [].

(** The outcome of [m] on the database [d]. *)
Definition eval {A} (m : M A) (d : DB) : Outcome A := snd (run m d).

(** [m] leaves the world as it found it, and its outcome depends on the
    database only. *)
Definition read_only {A} (m : M A) : Prop :=
  forall w, m w = (w, eval m (db w)).

(** The recipe, total alcohol and total volume that [get_cocktail_by_id]
    accumulates for a cocktail. *)
Definition by_id_totals (d : DB) (cocktail_id : Z) : list (Z * Q) * Q * Q :=
  fold_left cocktail_by_id_step (select_recipe_join cocktail_id d)
            ([], 0%Q, 0%Q).

(** The blended strength as the reads compute it, before rounding. *)
Definition blend (total_alcohol total_volume : Q) : Q :=
  if Qgtb total_volume 0 then (total_alcohol / total_volume * 100)%Q else 0%Q.

(** The [recipe] dictionary of the cocktail as [get_cocktail_by_id]
    returns it. *)
Definition recipe_of (d : DB) (cocktail_id : Z) : list (Z * Q) :=
  fst (fst (by_id_totals d cocktail_id)).

(** The verdict of the availability loop on the lines [lines]. *)
Definition lines_verdict (d : DB) (lines : list (Z * Q))
  : Outcome (option (bool * Msg)) :=
  eval (for_return lines check_line) d.

(** The soda has run out. *)
Definition dry_db : DB :=
  mk_DB [mk_ingredients_row 1 "Rum" 40 700 12 20;
         mk_ingredients_row 2 "Soda" 0 50 0 5]
        [mk_cocktails_row 1 "Mojito" 300]
        [mk_recipes_row 1 1 100; mk_recipes_row 1 2 50]
        [].

(** The cocktail "Ghost" is stored with one line, on ingredient 999, which
    the ingredient table does not have. *)
Definition ghost_db : DB :=
  mk_DB [mk_ingredients_row 1 "Rum" 40 700 12 20;
         mk_ingredients_row 2 "Soda" 0 50 10 5]
        [mk_cocktails_row 1 "Mojito" 300; mk_cocktails_row 2 "Ghost" 100]
        [mk_recipes_row 1 1 100; mk_recipes_row 1 2 50;
         mk_recipes_row 2 999 50]
        [].

(** Ingredient 1 comes in units of 50 ml; "Long" needs 120 ml of it and
    "Half" needs 50.5 ml. *)
Definition units_db : DB :=
  mk_DB [mk_ingredients_row 1 "Gin" 40 50 5 30]
        [mk_cocktails_row 1 "Long" 200; mk_cocktails_row 2 "Half" 90]
        [mk_recipes_row 1 1 120; mk_recipes_row 2 1 (101 # 2)]
        [].

(** Volume and strength of a joined row. *)
Definition line_of (r : recipes_row * ingredients_row) : Q * Q :=
  (rc_volume_ml (fst r), ing_alcohol_percent (snd r)).

(** The lines of a cocktail as the reads see them: the required volume and
    the current strength of the ingredient, one pair per joined row. *)
Definition strength_lines (d : DB) (cocktail_id : Z) : list (Q * Q) :=
  map line_of (select_recipe_join cocktail_id d).

(** The derived values in the words of the specification: total volume is
    the sum of the volumes; blended strength is the sum of volume times
    strength over the total volume, and zero when the total volume is
    zero. *)
Definition spec_total_volume (lines : list (Q * Q)) : Q :=
  fold_right (fun l acc => (fst l + acc)%Q) 0%Q lines.

Definition spec_weighted_sum (lines : list (Q * Q)) : Q :=
  fold_right (fun l acc => (fst l * snd l + acc)%Q) 0%Q lines.

Definition spec_blended_strength (lines : list (Q * Q)) : Q :=
  if Qeq_bool (spec_total_volume lines) 0 then 0%Q
  else (spec_weighted_sum lines / spec_total_volume lines)%Q.

(** [v] is [x] rounded to one decimal place, whichever way a tie goes: a
    whole number of tenths at most one twentieth away from [x]. *)
Definition tenth_near (v x : Q) : Prop :=
  (exists k : Z, (v * 10 == inject_Z k)%Q) /\ (Qabs (v - x) <= 1 # 20)%Q.

(** Total alcohol, total volume and the [recipe_dict] that
    [get_all_cocktails] accumulates for a cocktail. *)
Definition all_totals (d : DB) (cocktail_id : Z) : Q * Q * list (string * Q) :=
  fold_left all_cocktails_step (select_recipe_join cocktail_id d)
            (0%Q, 0%Q, []).

(** The dictionary [get_all_cocktails] appends for the row [row]. *)
Definition all_view (d : DB) (row : cocktails_row) : CocktailView string :=
  let '(total_alcohol, total_volume, recipe_dict) :=
    all_totals d (ck_id row) in
  mk_CocktailView (ck_id row) (ck_name row) (ck_price row) recipe_dict
    (round1 (blend total_alcohol total_volume)) total_volume.

(** A line passes: its ingredient is stored, some of it is on hand, and
    the volume on hand covers the required volume. *)
Definition line_ok (d : DB) (line : Z * Q) : Prop :=
  exists row,
    select_ingredient (fst line) d = Some row
    /\ 0 < ing_quantity row
    /\ (snd line <= inject_Z (ing_quantity row) * ing_volume_ml row)%Q.

(** The message for a line that does not pass. *)
Definition line_reason (d : DB) (line : Z * Q) : Msg :=
  match select_ingredient (fst line) d with
  | None => MsgIngredientIdNotFound (fst line)
  | Some row =>
      if ing_quantity row <=? 0 then MsgOutOfStock (ing_name row)
      else MsgNotEnoughVolume (ing_name row) (snd line)
             (inject_Z (ing_quantity row) * ing_volume_ml row)%Q
  end.

(** The calls that change the stock. *)
Inductive StockOp :=
| OpAdjust (ing_id' delta : Z)
| OpSellIngredient (now : string) (ing_id' quantity : Z)
| OpSellCocktail (now : string) (cocktail_id : Z)
| OpRestock (ing_id' quantity : Z).

(** The world after the call; an exception leaves the world the call had
    reached. *)
Definition exec_op (w : World) (op : StockOp) : World :=
  match op with
  | OpAdjust i delta => fst (update_ingredient_quantity i delta w)
  | OpSellIngredient now i quantity => fst (sell_ingredient now i quantity w)
  | OpSellCocktail now cocktail_id => fst (sell_cocktail now cocktail_id w)
  | OpRestock i quantity => fst (restock_ingredient i quantity w)
  end.

(** A sequence of calls, each starting where the one before ended. *)
Definition exec_ops (w : World) (ops : list StockOp) : World :=
  fold_left exec_op ops w.

(** Adjustments and restocks that add stock; sales are not restricted. *)
Definition adds_stock (op : StockOp) : Prop :=
  match op with
  | OpAdjust _ delta => 0 <= delta
  | OpRestock _ quantity => 0 <= quantity
  | _ => True
  end.

(** Every quantity on hand is non-negative. *)
Definition quantities_ok (d : DB) : Prop :=
  Forall (fun r => 0 <= ing_quantity r) (ingredients d).

(** Ingredient ids are unique (the primary key) and every unit volume is
    positive. *)
Definition ledger_ok (d : DB) : Prop :=
  NoDup (map ing_id (ingredients d))
  /\ Forall (fun r => (0 < ing_volume_ml r)%Q) (ingredients d).

Definition stock_ok (d : DB) : Prop := ledger_ok d /\ quantities_ok d.

(** The recipe lines of a cocktail as the [recipes] table stores them, in
    the order in which the reads meet them: ascending ingredient id. *)
Definition stored_lines (d : DB) (cocktail_id : Z) : list (Z * Q) :=
  map (fun r => (rc_ingredient_id r, rc_volume_ml r))
      (select_recipe_lines cocktail_id d).

(** Primary keys hold for ingredients and for the lines of the cocktail,
    and every line of the cocktail names a stored ingredient. *)
Definition recipe_intact (d : DB) (cocktail_id : Z) : Prop :=
  NoDup (map ing_id (ingredients d))
  /\ NoDup (map fst (stored_lines d cocktail_id))
  /\ Forall (fun line => In (fst line) (map ing_id (ingredients d)))
            (stored_lines d cocktail_id).

(** The order of two recipe lines in a read: by ingredient id. *)
Definition line_id_le (a b : Z * Q) : Prop := fst a <= fst b.


(** Ingredient id and required volume of a joined row. *)
Definition join_line (r : recipes_row * ingredients_row) : Z * Q :=
  (ing_id (snd r), rc_volume_ml (fst r)).

(** * Further reads and the vocabulary of their properties *)

(** ORDER BY ... DESC: insertion sort, largest key first. *)
Section OrderByDesc.
Context {R : Type} (key : R -> string).

Fixpoint insert_by_desc (x : R) (l : list R) : list R :=
  match l with
  | [] => [x]
  | y :: l' => if String.leb (key y) (key x) then x :: l
               else y :: insert_by_desc x l'
  end.

Definition order_by_desc (l : list R) : list R :=
  fold_right insert_by_desc [] l.
End OrderByDesc.

(** [get_sales_report]: SELECT * FROM sales ORDER BY date DESC LIMIT 100;
    each row becomes a dictionary with the columns of the table. *)
Definition get_sales_report : M (list sales_row) :=
  rows <- gets (fun d => firstn 100 (order_by_desc sl_date (sales d))) ;;
  ret rows.

(** The columns of an ingredient that no stock operation writes. *)
Definition ingredient_identity (r : ingredients_row)
  : Z * string * Q * Q * Q :=
  (ing_id r, ing_name r, ing_alcohol_percent r, ing_volume_ml r,
   ing_price_per_unit r).

(** The units [sell_cocktail] takes for a line on the stored row [r]. *)
Definition units_taken (need_vol : Q) (r : ingredients_row) : Z :=
  Qfloor ((need_vol + ing_volume_ml r - 1) / ing_volume_ml r).


(** The calls of the database layer that write. *)
Inductive Call :=
| CallAddIngredient (ingredient : Ingredient.t)
| CallAddCocktail (name : string) (price : Q) (recipe : list (Z * Q))
| CallStock (op : StockOp).

Definition exec_call (w : World) (c : Call) : World :=
  match c with
  | CallAddIngredient ingredient => fst (add_ingredient ingredient w)
  | CallAddCocktail name price recipe => fst (add_cocktail name price recipe w)
  | CallStock op => exec_op w op
  end.

Definition exec_calls (w : World) (calls : list Call) : World :=
  fold_left exec_call calls w.

(** The primary key of a recipe line. *)
Definition recipe_key (r : recipes_row) : Z * Z :=
  (rc_cocktail_id r, rc_ingredient_id r).

(** The keys of the schema: the primary keys and the UNIQUE names hold, and
    every recipe line belongs to a stored cocktail. *)
Definition keys_ok (d : DB) : Prop :=
  NoDup (map ing_id (ingredients d))
  /\ NoDup (map ing_name (ingredients d))
  /\ NoDup (map ck_id (cocktails d))
  /\ NoDup (map ck_name (cocktails d))
  /\ NoDup (map recipe_key (recipes d))
  /\ NoDup (map sl_id (sales d))
  /\ Forall (fun r => In (rc_cocktail_id r) (map ck_id (cocktails d)))
            (recipes d).

(** [a] comes no later than [b] in byte order. *)
Definition name_le (a b : string) : Prop := String.leb a b = true.

(** The catalogue is the same in [d'] as in [d]: the same cocktails and
    recipe lines, and the same ingredients but for their quantities. *)
Definition same_catalogue (d d' : DB) : Prop :=
  cocktails d' = cocktails d
  /\ recipes d' = recipes d
  /\ map ingredient_identity (ingredients d')
     = map ingredient_identity (ingredients d).

(** What one stock operation may do to the world [w]: it keeps the
    catalogue and adds at most one row at the end of the sales table, under
    the next free id. *)
Definition op_frame (w w' : World) : Prop :=
  same_catalogue (db w) (db w')
  /\ exists added,
       sales (db w') = sales (db w) ++ added
       /\ (added = []
           \/ exists s, added = [s]
                        /\ sl_id s = next_rowid (map sl_id (sales (db w)))).

(** The row that [add_cocktail] stores for an item of the recipe. *)
Definition recipe_row (cocktail_id : Z) (line : Z * Q) : recipes_row :=
  mk_recipes_row cocktail_id (fst line) (snd line).

(** What the loop of [add_cocktail] for the cocktail [cocktail_id] may do
    to the world [w], wherever it stops: only the recipe table changes, its
    primary key still holds, and every new line belongs to that cocktail. *)
Definition lines_added (cocktail_id : Z) (w w' : World) : Prop :=
  ingredients (db w') = ingredients (db w)
  /\ cocktails (db w') = cocktails (db w)
  /\ sales (db w') = sales (db w)
  /\ (NoDup (map recipe_key (recipes (db w))) ->
      NoDup (map recipe_key (recipes (db w'))))
  /\ (forall r, In r (recipes (db w')) ->
                In r (recipes (db w)) \/ rc_cocktail_id r = cocktail_id).

(** The order of two ingredients in a listing by name. *)
Definition ingredient_name_le (a b : Ingredient.t) : Prop :=
  name_le (Ingredient.name a) (Ingredient.name b).

(** The order of two sales in the report: the later date first. *)
Definition sale_newer_eq (a b : sales_row) : Prop :=
  name_le (sl_date b) (sl_date a).

(** The order of two cocktail dictionaries in a listing by name. *)
Definition view_name_le {K : Type} (a b : CocktailView K) : Prop :=
  name_le (cv_name a) (cv_name b).

(** A mixer whose unit volume was entered as 0, in a recipe that needs
    0 ml of it. *)
Definition zero_unit_db : DB :=
  mk_DB [mk_ingredients_row 1 "Rum" 40 700 12 20;
         mk_ingredients_row 2 "Mixer" 0 0 3 5]
        [mk_cocktails_row 1 "Dry" 300]
        [mk_recipes_row 1 1 100; mk_recipes_row 1 2 0]
        [].

(** How the depletion loop started in [w] may end: normally, or with a
    division by zero on an ingredient of unit volume 0; the sales are as
    they were. *)
Definition loop_outcome (w : World) (r : World * Outcome unit) : Prop :=
  sales (db (fst r)) = sales (db w)
  /\ (snd r = Return tt
      \/ (snd r = Raise ZeroDivisionError
          /\ exists row, In row (ingredients (db w))
                         /\ (ing_volume_ml row == 0)%Q)).

(** * Properties *)

(** ** Reads and the quantity update *)

Ltac unfold_monad :=
  unfold bind, ret, raise, gets, modify, messagebox, commit, try_except in *.

Lemma get_ingredient_by_id_run (ing_id' : Z) (w : World) :
  get_ingredient_by_id ing_id' w
  = (w, Return (option_map Ingredient.of_row (select_ingredient ing_id' (db w)))).
Proof.
  unfold get_ingredient_by_id; unfold_monad; cbn.
  destruct (select_ingredient ing_id' (db w)); reflexivity.
Qed.

Lemma update_ingredient_quantity_run (ing_id' delta : Z) (w : World) :
  update_ingredient_quantity ing_id' delta w
  = (mk_World (set_ingredients (db w)
                 (map (update_quantity_row delta ing_id') (ingredients (db w))))
              (boxes w),
     Return (0 <? Z.of_nat (List.length
               (filter (fun r => ing_id r =? ing_id') (ingredients (db w)))))).
Proof. reflexivity. Qed.

Lemma update_quantity_row_id (delta i : Z) (r : ingredients_row) :
  ing_id (update_quantity_row delta i r) = ing_id r.
Proof. unfold update_quantity_row; destruct (ing_id r =? i); reflexivity. Qed.

Lemma update_quantity_row_volume (delta i : Z) (r : ingredients_row) :
  ing_volume_ml (update_quantity_row delta i r) = ing_volume_ml r.
Proof. unfold update_quantity_row; destruct (ing_id r =? i); reflexivity. Qed.

Lemma update_quantity_row_other (delta i : Z) (r : ingredients_row) :
  ing_id r <> i -> update_quantity_row delta i r = r.
Proof.
  intros H; unfold update_quantity_row.
  destruct (Z.eqb_spec (ing_id r) i); [contradiction | reflexivity].
Qed.

Lemma update_quantity_row_same (delta i : Z) (r : ingredients_row) :
  ing_id r = i ->
  ing_quantity (update_quantity_row delta i r) = ing_quantity r + delta.
Proof.
  intros H; unfold update_quantity_row.
  destruct (Z.eqb_spec (ing_id r) i); [reflexivity | contradiction].
Qed.

(** What a later read of ingredient [j] sees after the UPDATE on [i]. *)
Lemma select_after_update (delta i j : Z) (d : DB) :
  select_ingredient j
    (set_ingredients d (map (update_quantity_row delta i) (ingredients d)))
  = option_map (update_quantity_row delta i) (select_ingredient j d).
Proof.
  unfold select_ingredient; cbn.
  induction (ingredients d) as [|r rows IH]; cbn; [reflexivity|].
  rewrite update_quantity_row_id.
  destruct (ing_id r =? j); [reflexivity | exact IH].
Qed.

Lemma select_ingredient_id (j : Z) (d : DB) (row : ingredients_row) :
  select_ingredient j d = Some row -> ing_id row = j.
Proof.
  unfold select_ingredient; intros H.
  apply find_some in H; destruct H as [_ H]; now apply Z.eqb_eq.
Qed.

Lemma select_ingredient_In (j : Z) (d : DB) (row : ingredients_row) :
  select_ingredient j d = Some row -> In row (ingredients d).
Proof. unfold select_ingredient; intros H; now apply find_some in H. Qed.

Lemma select_after_update_other (delta i j : Z) (d : DB) :
  j <> i ->
  select_ingredient j
    (set_ingredients d (map (update_quantity_row delta i) (ingredients d)))
  = select_ingredient j d.
Proof.
  intros Hne; rewrite select_after_update.
  destruct (select_ingredient j d) as [row|] eqn:E; [|reflexivity].
  cbn; rewrite update_quantity_row_other; [reflexivity|].
  apply select_ingredient_id in E; congruence.
Qed.

Lemma on_hand_after_update (delta i : Z) (d : DB) :
  on_hand (set_ingredients d
             (map (update_quantity_row delta i) (ingredients d))) i
  = option_map (fun q => q + delta) (on_hand d i).
Proof.
  unfold on_hand; rewrite select_after_update.
  destruct (select_ingredient i d) as [row|] eqn:E; [|reflexivity].
  cbn; f_equal; apply update_quantity_row_same.
  now apply select_ingredient_id in E.
Qed.

(** ** Selling an ingredient *)

(** C5: [sell_ingredient] refuses an absent ingredient with "ingredient not
    found", refuses with the "not enough" message exactly when the requested
    quantity exceeds the quantity on hand, and otherwise takes exactly the
    requested quantity off the ingredient, leaves the other ingredients
    alone, and appends one sale of type "ingredient" whose total price is
    quantity times unit price. *)
Theorem sell_ingredient_correct (now : string) (ing_id' quantity : Z)
    (w : World) :
  (select_ingredient ing_id' (db w) = None ->
   sell_ingredient now ing_id' quantity w
   = (mk_World (db w) (boxes w ++ [showerror MsgIngredientNotFound]),
      Return false))
  /\
  (forall row, select_ingredient ing_id' (db w) = Some row ->
   (ing_quantity row < quantity ->
    sell_ingredient now ing_id' quantity w
    = (mk_World (db w)
         (boxes w ++ [showerror (MsgNotEnoughUnits (ing_name row)
                                   (ing_quantity row) quantity)]),
       Return false))
   /\
   (quantity <= ing_quantity row ->
    exists w' sale,
      sell_ingredient now ing_id' quantity w = (w', Return true)
      /\ boxes w' = boxes w
      /\ on_hand (db w') ing_id' = Some (ing_quantity row - quantity)
      /\ (forall j, j <> ing_id' ->
            select_ingredient j (db w') = select_ingredient j (db w))
      /\ cocktails (db w') = cocktails (db w)
      /\ recipes (db w') = recipes (db w)
      /\ sales (db w') = sales (db w) ++ [sale]
      /\ sl_item_type sale = "ingredient"
      /\ sl_item_id sale = ing_id'
      /\ sl_quantity sale = inject_Z quantity
      /\ sl_total_price sale
         = (inject_Z quantity * ing_price_per_unit row)%Q
      /\ sl_date sale = now)).
Proof.
  split.
  - intros Hnone. unfold sell_ingredient, bind.
    rewrite get_ingredient_by_id_run, Hnone. reflexivity.
  - intros row Hrow. split; intros Hq.
    + unfold sell_ingredient, bind.
      rewrite get_ingredient_by_id_run, Hrow; cbn.
      apply Z.ltb_lt in Hq; rewrite Hq. reflexivity.
    + unfold sell_ingredient, bind.
      rewrite get_ingredient_by_id_run, Hrow; cbn.
      apply Z.ltb_ge in Hq; rewrite Hq.
      eexists; eexists; split; [reflexivity|].
      cbn. repeat split.
      * change (on_hand (set_ingredients (db w)
                  (map (update_quantity_row (- quantity) ing_id')
                       (ingredients (db w)))) ing_id'
                = Some (ing_quantity row - quantity)).
        rewrite on_hand_after_update. unfold on_hand; rewrite Hrow; cbn.
        f_equal; lia.
      * intros j Hj.
        change (select_ingredient j (set_ingredients (db w)
                  (map (update_quantity_row (- quantity) ing_id')
                       (ingredients (db w))))
                = select_ingredient j (db w)).
        now apply select_after_update_other.
Qed.

Lemma sell_ingredient_correct_witness :
  exists w',
    sell_ingredient "2024-05-01 18:00:00" 1 5 (mk_World rum_db [])
    = (w', Return true)
    /\ on_hand (db w') 1 = Some 7
    /\ map sl_total_price (sales (db w')) = [(inject_Z 5 * 20)%Q]
    /\ (inject_Z 5 * 20 == 100)%Q.
Proof.
  destruct (sell_ingredient_correct "2024-05-01 18:00:00" 1 5
              (mk_World rum_db [])) as [_ H].
  destruct (H (mk_ingredients_row 1 "Rum" 40 700 12 20) eq_refl) as [_ H'].
  destruct (H' ltac:(cbn; lia))
    as (w' & sale & Hrun & _ & Hq & _ & _ & _ & Hs & _ & _ & _ & Hp & _).
  exists w'. split; [exact Hrun|]. split; [exact Hq|].
  split; [rewrite Hs; cbn; now rewrite Hp | reflexivity].
Defined.

(** ** Adding an ingredient *)

Lemma existsb_name_In {R : Type} (key : R -> string) (name : string)
    (rows : list R) :
  existsb (fun r => String.eqb (key r) name) rows = true
  <-> In name (map key rows).
Proof.
  rewrite existsb_exists, in_map_iff.
  split; intros (r & H1 & H2); exists r.
  - apply String.eqb_eq in H2. now split.
  - split; [assumption | now apply String.eqb_eq].
Qed.

Lemma existsb_name_not_In {R : Type} (key : R -> string) (name : string)
    (rows : list R) :
  ~ In name (map key rows) ->
  existsb (fun r => String.eqb (key r) name) rows = false.
Proof.
  intros H. destruct (existsb _ rows) eqn:E; [|reflexivity].
  apply existsb_name_In in E. contradiction.
Qed.

(** C9: [add_ingredient] with a name that some stored ingredient already has
    (the same string, byte for byte) raises the "already exists" error and
    leaves the world as it was; with a name no stored ingredient has, it
    returns the new row's id and the table gains exactly one row, holding
    the supplied fields. *)
Theorem add_ingredient_correct (ingredient : Ingredient.t) (w : World) :
  (In (Ingredient.name ingredient) (map ing_name (ingredients (db w))) ->
   add_ingredient ingredient w
   = (w, Raise (ValueError (MsgIngredientExists (Ingredient.name ingredient)))))
  /\
  (~ In (Ingredient.name ingredient) (map ing_name (ingredients (db w))) ->
   exists rowid,
     ~ In rowid (map ing_id (ingredients (db w)))
     /\ add_ingredient ingredient w
        = (mk_World
             (set_ingredients (db w)
                (ingredients (db w)
                 ++ [mk_ingredients_row rowid
                       (Ingredient.name ingredient)
                       (Ingredient.alcohol_percent ingredient)
                       (Ingredient.volume_ml ingredient)
                       (Ingredient.quantity ingredient)
                       (Ingredient.price_per_unit ingredient)]))
             (boxes w),
           Return rowid)).
Proof.
  split; intros H.
  - apply existsb_name_In in H.
    unfold add_ingredient, insert_ingredient; unfold_monad; cbn.
    rewrite H. reflexivity.
  - apply existsb_name_not_In in H.
    exists (next_rowid (map ing_id (ingredients (db w)))). split.
    + intros Hin. unfold next_rowid in Hin.
      assert (Hmax : forall l x, In x l -> x <= fold_right Z.max 0 l).
      { induction l as [|y l IH]; cbn; [tauto|].
        intros x [->|Hx]; [lia | specialize (IH x Hx); lia]. }
      apply Hmax in Hin. lia.
    + unfold add_ingredient, insert_ingredient; unfold_monad; cbn.
      rewrite H. reflexivity.
Qed.

Lemma add_ingredient_correct_witness :
  add_ingredient (Ingredient.mk None "Rum" 38 500 3 15) (mk_World rum_db [])
  = (mk_World rum_db [], Raise (ValueError (MsgIngredientExists "Rum")))
  /\ exists rowid,
       snd (add_ingredient (Ingredient.mk None "rum" 38 500 3 15)
              (mk_World rum_db []))
       = Return rowid.
Proof.
  split.
  - apply (add_ingredient_correct (Ingredient.mk None "Rum" 38 500 3 15)
             (mk_World rum_db [])).
    cbn. left. reflexivity.
  - destruct (add_ingredient_correct (Ingredient.mk None "rum" 38 500 3 15)
                (mk_World rum_db [])) as [_ H].
    destruct H as (rowid & _ & Hrun).
    + cbn. intros [H|[]]. discriminate H.
    + exists rowid. rewrite Hrun. reflexivity.
Defined.

(** ** Restocking *)

(** C8, the claim as stated fails: [restock_ingredient] takes a negative
    quantity, reports success and lowers the stock below zero. *)
Lemma restock_ingredient_accepts_negative :
  exists w',
    restock_ingredient 1 (-20) (mk_World rum_db []) = (w', Return true)
    /\ on_hand (db w') 1 = Some (-8).
Proof. eexists. split; reflexivity. Qed.

(** C8, amended: [restock_ingredient] refuses an absent ingredient with
    "ingredient not found" and changes nothing; on a stored ingredient it
    adds the given quantity, whatever its sign, to the quantity on hand,
    leaves every other ingredient and the sales alone and returns [True].
    The quantities that are zero or negative are turned away one level up,
    by the restock dialog, which then does not call the method. *)
Theorem restock_ingredient_correct (ing_id' quantity : Z) (w : World) :
  (select_ingredient ing_id' (db w) = None ->
   restock_ingredient ing_id' quantity w
   = (mk_World (db w) (boxes w ++ [showerror MsgIngredientNotFound]),
      Return false))
  /\
  (forall row, select_ingredient ing_id' (db w) = Some row ->
   exists w',
     restock_ingredient ing_id' quantity w = (w', Return true)
     /\ on_hand (db w') ing_id' = Some (ing_quantity row + quantity)
     /\ (forall j, j <> ing_id' ->
           select_ingredient j (db w') = select_ingredient j (db w))
     /\ sales (db w') = sales (db w)
     /\ cocktails (db w') = cocktails (db w)
     /\ recipes (db w') = recipes (db w))
  /\
  (quantity <= 0 ->
   restock_dialog_restock ing_id' quantity w
   = (mk_World (db w) (boxes w ++ [showerror MsgQuantityMustBePositive]),
      Return tt)).
Proof.
  split; [|split].
  - intros Hnone. unfold restock_ingredient, bind.
    rewrite get_ingredient_by_id_run, Hnone. reflexivity.
  - intros row Hrow. unfold restock_ingredient, bind.
    rewrite get_ingredient_by_id_run, Hrow; cbn.
    eexists; split; [reflexivity|]. cbn. repeat split.
    + change (on_hand (set_ingredients (db w)
                (map (update_quantity_row quantity ing_id')
                     (ingredients (db w)))) ing_id'
              = Some (ing_quantity row + quantity)).
      rewrite on_hand_after_update. unfold on_hand; now rewrite Hrow.
    + intros j Hj.
      change (select_ingredient j (set_ingredients (db w)
                (map (update_quantity_row quantity ing_id')
                     (ingredients (db w))))
              = select_ingredient j (db w)).
      now apply select_after_update_other.
  - intros Hq. unfold restock_dialog_restock, try_except.
    apply Z.leb_le in Hq; rewrite Hq. reflexivity.
Qed.

Lemma restock_ingredient_correct_witness :
  (exists w',
     restock_ingredient 1 6 (mk_World rum_db []) = (w', Return true)
     /\ on_hand (db w') 1 = Some 18)
  /\ restock_dialog_restock 1 0 (mk_World rum_db [])
     = (mk_World rum_db [showerror MsgQuantityMustBePositive], Return tt)
  /\ restock_ingredient 2 6 (mk_World rum_db [])
     = (mk_World rum_db [showerror MsgIngredientNotFound], Return false).
Proof.
  destruct (restock_ingredient_correct 1 6 (mk_World rum_db []))
    as (_ & H & _).
  destruct (H (mk_ingredients_row 1 "Rum" 40 700 12 20) eq_refl)
    as (w' & Hrun & Hq & _).
  split; [exists w'; split; [exact Hrun | exact Hq]|].
  split.
  - apply (restock_ingredient_correct 1 0 (mk_World rum_db [])). lia.
  - apply (restock_ingredient_correct 2 6 (mk_World rum_db [])). reflexivity.
Defined.

(** ** Adding a cocktail *)

(** C7, the claim as stated fails: [add_cocktail] with an empty recipe
    succeeds and stores the cocktail. *)
Lemma add_cocktail_accepts_empty_recipe :
  add_cocktail "Water" 10 [] (mk_World rum_db [])
  = (mk_World (set_cocktails rum_db [mk_cocktails_row 1 "Water" 10]) [],
     Return 1).
Proof. reflexivity. Qed.

(** C7, amended: [add_cocktail] with a name some stored cocktail already
    has raises the "already exists" error and stores nothing; with a new
    name and an empty recipe it succeeds, storing the cocktail and no
    line.  The empty recipe is turned away one level up, by the dialog's
    [save], which then does not call the method. *)
Theorem add_cocktail_correct (name : string) (price : Q)
    (recipe : list (Z * Q)) (w : World) :
  (In name (map ck_name (cocktails (db w))) ->
   add_cocktail name price recipe w
   = (w, Raise (ValueError (MsgCocktailExists name))))
  /\
  (~ In name (map ck_name (cocktails (db w))) ->
   add_cocktail name price [] w
   = (mk_World
        (set_cocktails (db w)
           (cocktails (db w)
            ++ [mk_cocktails_row (next_rowid (map ck_id (cocktails (db w))))
                  name price]))
        (boxes w),
      Return (next_rowid (map ck_id (cocktails (db w))))))
  /\
  add_cocktail_dialog_save name price [] w
  = (mk_World (db w) (boxes w ++ [showerror MsgFillNameAndRecipe]),
     Return tt).
Proof.
  split; [|split].
  - intros H. apply existsb_name_In in H.
    unfold add_cocktail, insert_cocktail; unfold_monad; cbn.
    rewrite H. reflexivity.
  - intros H. apply existsb_name_not_In in H.
    unfold add_cocktail, insert_cocktail; unfold_monad; cbn.
    rewrite H. reflexivity.
  - unfold add_cocktail_dialog_save, try_except.
    rewrite orb_true_r. reflexivity.
Qed.

Lemma add_cocktail_correct_witness :
  add_cocktail "Mojito" 250 [(1, 40%Q)] (mk_World mojito_db [])
  = (mk_World mojito_db [], Raise (ValueError (MsgCocktailExists "Mojito")))
  /\ snd (add_cocktail "Daiquiri" 250 [] (mk_World mojito_db [])) = Return 2.
Proof.
  split.
  - apply (add_cocktail_correct "Mojito" 250 [(1, 40%Q)]
             (mk_World mojito_db [])).
    cbn. left. reflexivity.
  - destruct (add_cocktail_correct "Daiquiri" 250 [] (mk_World mojito_db []))
      as (_ & H & _).
    rewrite H; [reflexivity|].
    cbn. intros [H'|[]]. discriminate H'.
Defined.

(** ** Methods that only read *)

Lemma read_only_ret {A} (a : A) : read_only (ret a).
Proof. intros w; reflexivity. Qed.

Lemma read_only_gets {A} (f : DB -> A) : read_only (gets f).
Proof. intros w; reflexivity. Qed.

Lemma read_only_bind {A B} (m : M A) (k : A -> M B) :
  read_only m -> (forall a, read_only (k a)) -> read_only (bind m k).
Proof.
  intros Hm Hk w. unfold eval, run, bind.
  rewrite (Hm w), (Hm (mk_World (db w) [])); cbn.
  destruct (eval m (db w)) as [a|e]; [|reflexivity].
  rewrite (Hk a w), (Hk a (mk_World (db w) [])). reflexivity.
Qed.

Lemma read_only_for_return {X R} (xs : list X) (body : X -> M (option R)) :
  (forall x, read_only (body x)) -> read_only (for_return xs body).
Proof.
  intros Hbody. induction xs as [|x xs IH]; cbn.
  - apply read_only_ret.
  - apply read_only_bind; [apply Hbody|].
    intros [v|]; [apply read_only_ret | exact IH].
Qed.

Lemma read_only_get_ingredient_by_id (ing_id' : Z) :
  read_only (get_ingredient_by_id ing_id').
Proof.
  apply read_only_bind; [apply read_only_gets|].
  intros [row|]; apply read_only_ret.
Qed.

Lemma read_only_get_cocktail_by_id (cocktail_id : Z) :
  read_only (get_cocktail_by_id cocktail_id).
Proof.
  apply read_only_bind; [apply read_only_gets|].
  intros [row|]; [|apply read_only_ret].
  apply read_only_bind; [apply read_only_gets|].
  intros rows. destruct (fold_left _ rows _) as [[? ?] ?].
  apply read_only_ret.
Qed.

Lemma read_only_check_line (line : Z * Q) : read_only (check_line line).
Proof.
  destruct line as [i need]. unfold check_line.
  apply read_only_bind; [apply read_only_get_ingredient_by_id|].
  intros [ing|]; [|apply read_only_ret].
  destruct (_ <=? 0); [apply read_only_ret|].
  destruct (Qltb _ _); apply read_only_ret.
Qed.

Lemma read_only_check_cocktail_availability (cocktail_id : Z) :
  read_only (check_cocktail_availability cocktail_id).
Proof.
  apply read_only_bind; [apply read_only_get_cocktail_by_id|].
  intros [cocktail|]; [|apply read_only_ret].
  apply read_only_bind;
    [apply read_only_for_return, read_only_check_line|].
  intros [r|]; apply read_only_ret.
Qed.

Lemma eval_get_cocktail_by_id (cocktail_id : Z) (d : DB) :
  eval (get_cocktail_by_id cocktail_id) d
  = Return
      (match select_cocktail cocktail_id d with
       | None => None
       | Some row =>
           let '(recipe, total_alcohol, total_volume) :=
             by_id_totals d cocktail_id in
           Some (mk_CocktailView (ck_id row) (ck_name row) (ck_price row)
                   recipe (round1 (blend total_alcohol total_volume))
                   total_volume)
       end).
Proof.
  unfold eval, run, get_cocktail_by_id, by_id_totals, blend; unfold_monad; cbn.
  destruct (select_cocktail cocktail_id d) as [row|]; [|reflexivity].
  destruct (fold_left _ _ _) as [[? ?] ?]. reflexivity.
Qed.

Lemma get_cocktail_by_id_cases (cocktail_id : Z) (w : World) :
  (select_cocktail cocktail_id (db w) = None
   /\ get_cocktail_by_id cocktail_id w = (w, Return None))
  \/ (exists row view,
        select_cocktail cocktail_id (db w) = Some row
        /\ get_cocktail_by_id cocktail_id w = (w, Return (Some view))
        /\ cv_recipe view = recipe_of (db w) cocktail_id
        /\ cv_price view = ck_price row).
Proof.
  rewrite (read_only_get_cocktail_by_id cocktail_id w),
    eval_get_cocktail_by_id.
  unfold recipe_of.
  destruct (select_cocktail cocktail_id (db w)) as [row|];
    [right | left; split; reflexivity].
  destruct (by_id_totals (db w) cocktail_id) as [[recipe ta] tv].
  eexists; eexists; repeat split.
Qed.

Lemma check_cocktail_availability_found (cocktail_id : Z) (w : World)
    (row : cocktails_row) :
  select_cocktail cocktail_id (db w) = Some row ->
  check_cocktail_availability cocktail_id w
  = (w, match lines_verdict (db w) (recipe_of (db w) cocktail_id) with
        | Return (Some result) => Return result
        | Return None => Return (true, MsgAvailable)
        | Raise e => Raise e
        end).
Proof.
  intros Hrow. unfold check_cocktail_availability, bind.
  destruct (get_cocktail_by_id_cases cocktail_id w)
    as [[Hn _] | (row' & view & _ & Hrun & Hrec & _)]; [congruence|].
  rewrite Hrun, Hrec.
  rewrite (read_only_for_return _ _ read_only_check_line w).
  unfold lines_verdict.
  destruct (eval _ (db w)) as [[r|]|e]; reflexivity.
Qed.

Lemma check_cocktail_availability_not_found (cocktail_id : Z) (w : World) :
  select_cocktail cocktail_id (db w) = None ->
  check_cocktail_availability cocktail_id w
  = (w, Return (false, MsgCocktailNotFound)).
Proof.
  intros Hrow. unfold check_cocktail_availability, bind.
  destruct (get_cocktail_by_id_cases cocktail_id w)
    as [[_ Hrun] | (row' & view & Hs & _)]; [|congruence].
  rewrite Hrun. reflexivity.
Qed.

(** ** Selling a cocktail: failure changes nothing *)

(** C4: when [sell_cocktail] fails, because the cocktail is not found or
    because the availability check names a failing line, the database is
    unchanged: every quantity is as before and the sales table has no new
    row.  Conversely a [False] result always comes with an unchanged
    database. *)
Theorem sell_cocktail_failure_atomic (now : string) (cocktail_id : Z)
    (w : World) :
  (select_cocktail cocktail_id (db w) = None ->
   sell_cocktail now cocktail_id w
   = (mk_World (db w) (boxes w ++ [showerror MsgCocktailNotFound]),
      Return false))
  /\
  (forall msg,
     eval (check_cocktail_availability cocktail_id) (db w)
     = Return (false, msg) ->
     sell_cocktail now cocktail_id w
     = (mk_World (db w) (boxes w ++ [showerror msg]), Return false))
  /\
  (forall w', sell_cocktail now cocktail_id w = (w', Return false) ->
              db w' = db w).
Proof.
  assert (Hnone : select_cocktail cocktail_id (db w) = None ->
    sell_cocktail now cocktail_id w
    = (mk_World (db w) (boxes w ++ [showerror MsgCocktailNotFound]),
       Return false)).
  { intros Hn. unfold sell_cocktail, bind.
    destruct (get_cocktail_by_id_cases cocktail_id w)
      as [[_ Hrun] | (row' & view & Hs & _)]; [|congruence].
    rewrite Hrun. reflexivity. }
  split; [exact Hnone|]. split.
  - intros msg Hcheck.
    destruct (select_cocktail cocktail_id (db w)) as [row|] eqn:Hrow.
    + unfold sell_cocktail, bind.
      destruct (get_cocktail_by_id_cases cocktail_id w)
        as [[Hn _] | (row' & view & _ & Hrun & _)]; [congruence|].
      rewrite Hrun.
      rewrite (read_only_check_cocktail_availability cocktail_id w), Hcheck.
      reflexivity.
    + rewrite (Hnone eq_refl).
      pose proof (check_cocktail_availability_not_found cocktail_id
                    (mk_World (db w) []) Hrow) as Hc.
      unfold eval, run in Hcheck. rewrite Hc in Hcheck. cbn in Hcheck.
      congruence.
  - intros w' Hrun.
    destruct (select_cocktail cocktail_id (db w)) as [row|] eqn:Hrow.
    + revert Hrun. unfold sell_cocktail, bind.
      destruct (get_cocktail_by_id_cases cocktail_id w)
        as [[Hn _] | (row' & view & _ & Hget & _)]; [congruence|].
      rewrite Hget.
      rewrite (read_only_check_cocktail_availability cocktail_id w).
      destruct (eval _ (db w)) as [[[|] msg]|e]; cbn.
      * destruct (for_each (cv_recipe view) deplete_line w) as [w1 [u|e]];
          cbn; intros H; inversion H.
      * intros H; inversion H; reflexivity.
      * intros H; inversion H.
    + rewrite (Hnone eq_refl) in Hrun. inversion Hrun. reflexivity.
Qed.

Lemma sell_cocktail_failure_atomic_witness :
  sell_cocktail "2024-05-01 18:00:00" 9 (mk_World mojito_db [])
  = (mk_World mojito_db [showerror MsgCocktailNotFound], Return false)
  /\ sell_cocktail "2024-05-01 18:00:00" 1 (mk_World dry_db [])
     = (mk_World dry_db [showerror (MsgOutOfStock "Soda")], Return false).
Proof.
  split.
  - apply (sell_cocktail_failure_atomic "2024-05-01 18:00:00" 9
             (mk_World mojito_db [])).
    reflexivity.
  - apply (sell_cocktail_failure_atomic "2024-05-01 18:00:00" 1
             (mk_World dry_db [])).
    reflexivity.
Defined.

(** ** Availability *)

(** C2, at the failing input: [add_cocktail] stores a recipe line on an
    ingredient id that is not in the table; the join of [get_cocktail_by_id]
    then drops that line, the loop of [check_cocktail_availability] never
    sees it, its "ingredient not found" branch is never taken, and the
    cocktail is reported available, and sold without any stock taken. *)
Theorem check_availability_misses_absent_ingredient :
  add_cocktail "Ghost" 100 [(999, 50%Q)] (mk_World mojito_db [])
  = (mk_World ghost_db [], Return 2)
  /\ In (mk_recipes_row 2 999 50) (recipes ghost_db)
  /\ select_ingredient 999 ghost_db = None
  /\ eval (get_cocktail_by_id 2) ghost_db
     = Return (Some (mk_CocktailView 2 "Ghost" 100 [] (round1 0) 0))
  /\ check_cocktail_availability 2 (mk_World ghost_db [])
     = (mk_World ghost_db [], Return (true, MsgAvailable))
  /\ exists w',
       sell_cocktail "2024-05-01 18:00:00" 2 (mk_World ghost_db [])
       = (w', Return true)
       /\ ingredients (db w') = ingredients ghost_db.
Proof.
  split; [reflexivity|].
  split; [cbn; tauto|].
  split; [reflexivity|].
  split; [reflexivity|].
  split; [reflexivity|].
  eexists; split; reflexivity.
Qed.

(** ** Units taken by a cocktail sale *)

(** C3, at the failing input: a line that needs 50.5 ml of an ingredient
    sold in units of 50 ml takes 1 unit, where the ceiling of 50.5 / 50
    is 2; the line of 120 ml takes the 3 units the claim names. *)
Theorem sell_cocktail_units_below_ceiling :
  eval (units_needed (101 # 2) 50) units_db = Return 1
  /\ Qceiling ((101 # 2) / 50) = 2
  /\ (exists w',
        sell_cocktail "2024-05-01 18:00:00" 2 (mk_World units_db [])
        = (w', Return true)
        /\ on_hand (db w') 1 = Some 4)
  /\ eval (units_needed 120 50) units_db = Return 3
  /\ Qceiling (120 / 50) = 3
  /\ (exists w',
        sell_cocktail "2024-05-01 18:00:00" 1 (mk_World units_db [])
        = (w', Return true)
        /\ on_hand (db w') 1 = Some 2).
Proof.
  split; [reflexivity|].
  split; [reflexivity|].
  split; [eexists; split; reflexivity|].
  split; [reflexivity|].
  split; [reflexivity|].
  eexists; split; reflexivity.
Qed.

(** ** Blended strength and total volume *)

Lemma round_half_even_comp (x y : Q) :
  (x == y)%Q -> round_half_even x = round_half_even y.
Proof.
  intros H. unfold round_half_even.
  rewrite (Qfloor_comp _ _ H).
  assert (E : (x - inject_Z (Qfloor y) == y - inject_Z (Qfloor y))%Q)
    by (rewrite H; reflexivity).
  rewrite (Qcompare_comp _ _ E _ _ (Qeq_refl (1 # 2))). reflexivity.
Qed.

Lemma round_half_even_near (x : Q) :
  (- (1 # 2) <= inject_Z (round_half_even x) - x <= 1 # 2)%Q.
Proof.
  unfold round_half_even.
  pose proof (Qfloor_le x) as Hlo.
  pose proof (Qlt_floor x) as Hhi.
  rewrite inject_Z_plus in Hhi. change (inject_Z 1) with 1%Q in Hhi.
  destruct (Qcompare_spec (x - inject_Z (Qfloor x)) (1 # 2)) as [E|E|E].
  - destruct (Z.even (Qfloor x));
      [|rewrite inject_Z_plus; change (inject_Z 1) with 1%Q]; lra.
  - lra.
  - rewrite inject_Z_plus. change (inject_Z 1) with 1%Q. lra.
Qed.

Lemma round1_comp (x y : Q) : (x == y)%Q -> round1 x = round1 y.
Proof.
  intros H. unfold round1.
  rewrite (round_half_even_comp (x * 10) (y * 10)); [reflexivity|].
  now rewrite H.
Qed.

Lemma round1_near (x : Q) : (Qabs (round1 x - x) <= 1 # 20)%Q.
Proof.
  apply Qabs_Qle_condition. unfold round1.
  pose proof (round_half_even_near (x * 10)) as H.
  set (k := inject_Z (round_half_even (x * 10))) in *.
  assert (E : (k / 10 == k * (1 # 10))%Q) by field.
  rewrite E. lra.
Qed.

Lemma round1_tenths (x : Q) :
  (round1 x * 10 == inject_Z (round_half_even (x * 10)))%Q.
Proof. unfold round1. field. Qed.

Lemma spec_weighted_sum_cons (l : Q * Q) (lines : list (Q * Q)) :
  spec_weighted_sum (l :: lines)
  = (fst l * snd l + spec_weighted_sum lines)%Q.
Proof. reflexivity. Qed.

Lemma spec_total_volume_cons (l : Q * Q) (lines : list (Q * Q)) :
  spec_total_volume (l :: lines) = (fst l + spec_total_volume lines)%Q.
Proof. reflexivity. Qed.

Lemma by_id_fold (rows : list (recipes_row * ingredients_row))
    (recipe : list (Z * Q)) (ta tv : Q) :
  (snd (fst (fold_left cocktail_by_id_step rows (recipe, ta, tv)))
   == ta + spec_weighted_sum (map line_of rows) / 100)%Q
  /\ (snd (fold_left cocktail_by_id_step rows (recipe, ta, tv))
      == tv + spec_total_volume (map line_of rows))%Q.
Proof.
  revert recipe ta tv. induction rows as [|r rows IH]; intros recipe ta tv.
  - cbn -[Qplus Qmult Qdiv]. split; [field | ring].
  - change (fold_left cocktail_by_id_step (r :: rows) (recipe, ta, tv))
      with (fold_left cocktail_by_id_step rows
              (cocktail_by_id_step (recipe, ta, tv) r)).
    change (map line_of (r :: rows)) with (line_of r :: map line_of rows).
    rewrite spec_weighted_sum_cons, spec_total_volume_cons.
    unfold cocktail_by_id_step at 2 4.
    destruct (IH (dict_set Z.eqb recipe (ing_id (snd r)) (rc_volume_ml (fst r)))
                 (ta + rc_volume_ml (fst r) * ing_alcohol_percent (snd r) / 100)%Q
                 (tv + rc_volume_ml (fst r))%Q) as [H1 H2].
    split; [rewrite H1 | rewrite H2]; unfold line_of; cbn [fst snd];
      [field | ring].
Qed.

Lemma all_fold (rows : list (recipes_row * ingredients_row))
    (recipe : list (string * Q)) (ta tv : Q) :
  (fst (fst (fold_left all_cocktails_step rows (ta, tv, recipe)))
   == ta + spec_weighted_sum (map line_of rows) / 100)%Q
  /\ (snd (fst (fold_left all_cocktails_step rows (ta, tv, recipe)))
      == tv + spec_total_volume (map line_of rows))%Q.
Proof.
  revert recipe ta tv. induction rows as [|r rows IH]; intros recipe ta tv.
  - cbn -[Qplus Qmult Qdiv]. split; [field | ring].
  - change (fold_left all_cocktails_step (r :: rows) (ta, tv, recipe))
      with (fold_left all_cocktails_step rows
              (all_cocktails_step (ta, tv, recipe) r)).
    change (map line_of (r :: rows)) with (line_of r :: map line_of rows).
    rewrite spec_weighted_sum_cons, spec_total_volume_cons.
    unfold all_cocktails_step at 2 4.
    destruct (IH (dict_set String.eqb recipe (ing_name (snd r))
                    (rc_volume_ml (fst r)))
                 (ta + rc_volume_ml (fst r) * ing_alcohol_percent (snd r) / 100)%Q
                 (tv + rc_volume_ml (fst r))%Q) as [H1 H2].
    split; [rewrite H1 | rewrite H2]; unfold line_of; cbn [fst snd];
      [field | ring].
Qed.

(** What the code computes before rounding agrees with the specification's
    blended strength whenever the total volume is not negative. *)
Lemma blend_spec (lines : list (Q * Q)) (ta tv : Q) :
  (ta == spec_weighted_sum lines / 100)%Q ->
  (tv == spec_total_volume lines)%Q ->
  (0 <= spec_total_volume lines)%Q ->
  (blend ta tv == spec_blended_strength lines)%Q.
Proof.
  intros Ha Hv Hpos. unfold blend, spec_blended_strength, Qgtb, Qltb.
  destruct (Qeq_bool (spec_total_volume lines) 0) eqn:E.
  - apply Qeq_bool_eq in E.
    assert (Hle : Qle_bool tv 0 = true)
      by (apply Qle_bool_iff; rewrite Hv, E; apply Qle_refl).
    rewrite Hle. reflexivity.
  - apply Qeq_bool_neq in E.
    assert (Hle : Qle_bool tv 0 = false).
    { destruct (Qle_bool tv 0) eqn:L; [|reflexivity].
      apply Qle_bool_iff in L. rewrite Hv in L.
      exfalso; apply E; now apply Qle_antisym. }
    rewrite Hle; cbn [negb]. rewrite Ha, Hv. now field.
Qed.

Lemma for_collect_run {X Y} (xs : list X) (body : X -> M Y)
    (f : DB -> X -> Y) :
  (forall x w, body x w = (w, Return (f (db w) x))) ->
  forall w, for_collect xs body w = (w, Return (map (f (db w)) xs)).
Proof.
  intros Hbody w. induction xs as [|x xs IH]; cbn; [reflexivity|].
  unfold bind. rewrite Hbody, IH. reflexivity.
Qed.

Lemma get_all_cocktails_run (w : World) :
  get_all_cocktails w
  = (w, Return (map (all_view (db w)) (order_by ck_name (cocktails (db w))))).
Proof.
  unfold get_all_cocktails, bind at 1, gets at 1.
  apply for_collect_run. intros row w'.
  unfold bind, gets, all_view, all_totals, blend.
  destruct (fold_left _ _ _) as [[ta tv] dict]. reflexivity.
Qed.

Lemma insert_by_In {R : Type} (key : R -> string) (x y : R) (l : list R) :
  In y (insert_by key x l) <-> y = x \/ In y l.
Proof.
  induction l as [|z l IH]; cbn.
  - intuition congruence.
  - destruct (String.leb (key x) (key z)); cbn; [|rewrite IH];
      intuition congruence.
Qed.

Lemma order_by_In {R : Type} (key : R -> string) (y : R) (l : list R) :
  In y (order_by key l) <-> In y l.
Proof.
  unfold order_by. induction l as [|x l IH]; cbn; [tauto|].
  rewrite insert_by_In, IH. intuition congruence.
Qed.

Lemma by_id_view_derived (d : DB) (cocktail_id : Z) (row : cocktails_row) :
  select_cocktail cocktail_id d = Some row ->
  (0 <= spec_total_volume (strength_lines d cocktail_id))%Q ->
  exists view,
    eval (get_cocktail_by_id cocktail_id) d = Return (Some view)
    /\ cv_alcohol_percent view
       = round1 (spec_blended_strength (strength_lines d cocktail_id))
    /\ (cv_volume view == spec_total_volume (strength_lines d cocktail_id))%Q.
Proof.
  intros Hrow Hpos. rewrite eval_get_cocktail_by_id, Hrow.
  unfold by_id_totals.
  destruct (by_id_fold (select_recipe_join cocktail_id d) [] 0 0) as [Ha Hv].
  destruct (fold_left _ _ _) as [[recipe ta] tv]. cbn [fst snd] in Ha, Hv.
  eexists; split; [reflexivity|]. cbn [cv_alcohol_percent cv_volume].
  fold (strength_lines d cocktail_id) in Ha, Hv.
  rewrite Qplus_0_l in Ha, Hv.
  split; [|exact Hv].
  apply round1_comp, blend_spec; assumption.
Qed.

Lemma all_view_derived (d : DB) (row : cocktails_row) :
  (0 <= spec_total_volume (strength_lines d (ck_id row)))%Q ->
  cv_alcohol_percent (all_view d row)
  = round1 (spec_blended_strength (strength_lines d (cv_id (all_view d row))))
  /\ (cv_volume (all_view d row)
      == spec_total_volume (strength_lines d (cv_id (all_view d row))))%Q.
Proof.
  intros Hpos. unfold all_view, all_totals.
  destruct (all_fold (select_recipe_join (ck_id row) d) [] 0 0) as [Ha Hv].
  destruct (fold_left _ _ _) as [[ta tv] dict]. cbn [fst snd] in Ha, Hv.
  cbn [cv_alcohol_percent cv_volume cv_id].
  fold (strength_lines d (ck_id row)) in Ha, Hv.
  rewrite Qplus_0_l in Ha, Hv.
  split; [|exact Hv].
  apply round1_comp, blend_spec; assumption.
Qed.

(** What holds of [round1] whichever way a tie is broken. *)
Lemma round1_tenth_near (x : Q) : tenth_near (round1 x) x.
Proof.
  split; [eexists; apply round1_tenths | apply round1_near].
Qed.

Lemma round1_no_volume (lines : list (Q * Q)) :
  (spec_total_volume lines == 0)%Q ->
  (round1 (spec_blended_strength lines) == 0)%Q.
Proof.
  intros Hz. unfold spec_blended_strength.
  rewrite (Qeq_eq_bool _ _ Hz). reflexivity.
Qed.

Lemma tenth_near_comp (v x y : Q) :
  (x == y)%Q -> tenth_near v x -> tenth_near v y.
Proof.
  intros E [Hk Hnear]. split; [exact Hk|]. now rewrite <- E.
Qed.

(** No tenth is nearer to [x] than one that is at most a twentieth away. *)
Lemma tenth_near_nearest (v x : Q) (k' : Z) :
  tenth_near v x ->
  (Qabs (v - x) <= Qabs (inject_Z k' / 10 - x))%Q.
Proof.
  intros [[k Hk] Hnear].
  set (t := (inject_Z k' / 10)%Q).
  assert (Ht : (t * 10 == inject_Z k')%Q) by (unfold t; field).
  clearbody t.
  destruct (Z.lt_trichotomy k' k) as [Hlt|[->|Hgt]].
  - assert (Hz : (k' + 1 <= k)%Z) by lia.
    rewrite Zle_Qle, inject_Z_plus in Hz. change (inject_Z 1) with 1%Q in Hz.
    apply Qabs_Qle_condition in Hnear. destruct Hnear as [Hlo Hhi].
    apply Qle_trans with (- (t - x))%Q.
    + apply Qabs_Qle_condition. split; lra.
    + rewrite <- Qabs_opp. apply Qle_Qabs.
  - assert (E : (v == t)%Q) by lra. rewrite E. apply Qle_refl.
  - assert (Hz : (k + 1 <= k')%Z) by lia.
    rewrite Zle_Qle, inject_Z_plus in Hz. change (inject_Z 1) with 1%Q in Hz.
    apply Qabs_Qle_condition in Hnear. destruct Hnear as [Hlo Hhi].
    apply Qle_trans with (t - x)%Q.
    + apply Qabs_Qle_condition. split; lra.
    + apply Qle_Qabs.
Qed.

(** C6, the claim as stated fails: for the lines (100 ml, 40 %) and
    (50 ml, 0 %) the exact blend is 80/3, and the read returns 26.7, which
    is neither that nor 26.67; the total volume is 150. *)
Lemma blended_strength_not_exact :
  exists view,
    eval (get_cocktail_by_id 1) mojito_db = Return (Some view)
    /\ strength_lines mojito_db 1 = [(100, 40); (50, 0)]%Q
    /\ (spec_blended_strength (strength_lines mojito_db 1) == 80 # 3)%Q
    /\ (cv_alcohol_percent view == 267 # 10)%Q
    /\ ~ (cv_alcohol_percent view
          == spec_blended_strength (strength_lines mojito_db 1))%Q
    /\ ~ (cv_alcohol_percent view == 2667 # 100)%Q
    /\ (cv_volume view == 150)%Q.
Proof.
  eexists. split; [reflexivity|].
  repeat split; try reflexivity; intros H; discriminate H.
Qed.

(** C6, amended: reading a recipe whose total volume is not negative, with
    [get_cocktail_by_id] or in the list of [get_all_cocktails] (one entry
    per stored cocktail, in the order of the names), returns as total
    volume the sum of the volumes, and as blended strength the
    specification's value (sum of volume times current strength over total
    volume, zero when the total volume is zero) to one decimal place: a
    whole number of tenths at most one twentieth away from it, and 0 when
    the total volume is 0.  Which of the two neighbouring tenths is
    returned when that value lies exactly half-way between them is left
    open. *)
Theorem recipe_reads_derived_values (d : DB) :
  (forall cocktail_id row,
     select_cocktail cocktail_id d = Some row ->
     (0 <= spec_total_volume (strength_lines d cocktail_id))%Q ->
     exists view,
       eval (get_cocktail_by_id cocktail_id) d = Return (Some view)
       /\ tenth_near (cv_alcohol_percent view)
            (spec_blended_strength (strength_lines d cocktail_id))
       /\ ((spec_total_volume (strength_lines d cocktail_id) == 0)%Q ->
           (cv_alcohol_percent view == 0)%Q)
       /\ (cv_volume view
           == spec_total_volume (strength_lines d cocktail_id))%Q)
  /\
  ((forall row, In row (cocktails d) ->
      (0 <= spec_total_volume (strength_lines d (ck_id row)))%Q) ->
   exists views,
     eval get_all_cocktails d = Return views
     /\ map cv_id views = map ck_id (order_by ck_name (cocktails d))
     /\ Forall (fun view =>
          tenth_near (cv_alcohol_percent view)
            (spec_blended_strength (strength_lines d (cv_id view)))
          /\ ((spec_total_volume (strength_lines d (cv_id view)) == 0)%Q ->
              (cv_alcohol_percent view == 0)%Q)
          /\ (cv_volume view
              == spec_total_volume (strength_lines d (cv_id view)))%Q)
          views).
Proof.
  split.
  - intros cocktail_id row Hrow Hpos.
    destruct (by_id_view_derived d cocktail_id row Hrow Hpos)
      as (view & Hrun & Ha & Hv).
    exists view. split; [exact Hrun|]. rewrite Ha.
    split; [apply round1_tenth_near|].
    split; [apply round1_no_volume | exact Hv].
  - intros Hpos.
    exists (map (all_view d) (order_by ck_name (cocktails d))).
    split; [unfold eval, run; now rewrite get_all_cocktails_run|].
    split.
    + rewrite map_map. apply map_ext. intros row. unfold all_view.
      destruct (all_totals d (ck_id row)) as [[? ?] ?]. reflexivity.
    + apply Forall_map, Forall_forall. intros row Hin.
      apply order_by_In in Hin.
      destruct (all_view_derived d row (Hpos row Hin)) as [Ha Hv].
      rewrite Ha.
      split; [apply round1_tenth_near|].
      split; [apply round1_no_volume | exact Hv].
Qed.

(** C6, witness: the lines (100 ml, 40 %) and (50 ml, 0 %) read as 26.7 %
    and 150 ml. *)
Lemma recipe_reads_derived_values_witness :
  (exists view,
     eval (get_cocktail_by_id 1) mojito_db = Return (Some view)
     /\ (cv_alcohol_percent view == 267 # 10)%Q
     /\ tenth_near (cv_alcohol_percent view) (80 # 3)
     /\ (cv_volume view == 150)%Q)
  /\ exists views,
       eval get_all_cocktails mojito_db = Return views
       /\ map cv_id views = [1]
       /\ Forall (fun view => tenth_near (cv_alcohol_percent view) (80 # 3))
                 views.
Proof.
  destruct (recipe_reads_derived_values mojito_db) as [H1 H2].
  split.
  - destruct (H1 1 (mk_cocktails_row 1 "Mojito" 300) eq_refl)
      as (view & Hrun & Hnear & _ & Hv); [cbn; discriminate|].
    exists view. split; [exact Hrun|].
    split; [inversion Hrun; reflexivity|].
    split; [|rewrite Hv; reflexivity].
    apply (tenth_near_comp _ (spec_blended_strength (strength_lines mojito_db 1)));
      [reflexivity | exact Hnear].
  - destruct H2 as (views & Hrun & Hids & Hall).
    + intros row [<-|[]]. cbn. discriminate.
    + exists views. split; [exact Hrun|]. split; [exact Hids|].
      inversion Hrun; subst views.
      inversion Hall as [|view rest (Hnear & _) _]; subst.
      constructor; [|constructor].
      apply (tenth_near_comp _
               (spec_blended_strength (strength_lines mojito_db 1)));
        [reflexivity | exact Hnear].
Defined.

(** C10: the blended strength that [get_cocktail_by_id] and
    [get_all_cocktails] (one entry per stored cocktail, in the order of the
    names) return is the exact blended strength rounded to one decimal
    place and not that strength itself: it is a whole number of tenths, it
    lies within one twentieth of the exact blended strength, no other
    tenth is nearer to it, and for the lines (100 ml, 40 %) and
    (50 ml, 0 %) it differs from the exact 80/3.  Which of the two
    neighbouring tenths is returned at an exact tie is left open. *)
Theorem blended_strength_rounded (d : DB) :
  (forall cocktail_id row,
     select_cocktail cocktail_id d = Some row ->
     (0 <= spec_total_volume (strength_lines d cocktail_id))%Q ->
     exists view,
       eval (get_cocktail_by_id cocktail_id) d = Return (Some view)
       /\ tenth_near (cv_alcohol_percent view)
            (spec_blended_strength (strength_lines d cocktail_id))
       /\ (forall k : Z,
             Qabs (cv_alcohol_percent view
                   - spec_blended_strength (strength_lines d cocktail_id))
             <= Qabs (inject_Z k / 10
                      - spec_blended_strength (strength_lines d cocktail_id)))%Q)
  /\
  ((forall row, In row (cocktails d) ->
      (0 <= spec_total_volume (strength_lines d (ck_id row)))%Q) ->
   exists views,
     eval get_all_cocktails d = Return views
     /\ map cv_id views = map ck_id (order_by ck_name (cocktails d))
     /\ Forall (fun view =>
          tenth_near (cv_alcohol_percent view)
            (spec_blended_strength (strength_lines d (cv_id view)))
          /\ (forall k : Z,
                Qabs (cv_alcohol_percent view
                      - spec_blended_strength (strength_lines d (cv_id view)))
                <= Qabs (inject_Z k / 10
                         - spec_blended_strength
                             (strength_lines d (cv_id view))))%Q)
          views)
  /\
  (exists view,
     eval (get_cocktail_by_id 1) mojito_db = Return (Some view)
     /\ ~ (cv_alcohol_percent view
           == spec_blended_strength (strength_lines mojito_db 1))%Q).
Proof.
  split; [|split].
  - intros cocktail_id row Hrow Hpos.
    destruct (by_id_view_derived d cocktail_id row Hrow Hpos)
      as (view & Hrun & Ha & _).
    exists view. split; [exact Hrun|]. rewrite Ha.
    split; [apply round1_tenth_near|].
    intros k. apply tenth_near_nearest, round1_tenth_near.
  - intros Hpos.
    exists (map (all_view d) (order_by ck_name (cocktails d))).
    split; [unfold eval, run; now rewrite get_all_cocktails_run|].
    split.
    + rewrite map_map. apply map_ext. intros row. unfold all_view.
      destruct (all_totals d (ck_id row)) as [[? ?] ?]. reflexivity.
    + apply Forall_map, Forall_forall. intros row Hin.
      apply order_by_In in Hin.
      destruct (all_view_derived d row (Hpos row Hin)) as [Ha _].
      rewrite Ha.
      split; [apply round1_tenth_near|].
      intros k. apply tenth_near_nearest, round1_tenth_near.
  - eexists. split; [reflexivity|]. intros H; discriminate H.
Qed.

(** C10, witness: the Mojito reads as a whole number of tenths within one
    twentieth of 80/3, by id and in the list. *)
Lemma blended_strength_rounded_witness :
  (exists view,
     eval (get_cocktail_by_id 1) mojito_db = Return (Some view)
     /\ tenth_near (cv_alcohol_percent view) (80 # 3))
  /\ exists views,
       eval get_all_cocktails mojito_db = Return views
       /\ map cv_id views = [1].
Proof.
  destruct (blended_strength_rounded mojito_db) as (H1 & H2 & _).
  split.
  - destruct (H1 1 (mk_cocktails_row 1 "Mojito" 300) eq_refl)
      as (view & Hrun & Hnear & _); [cbn; discriminate|].
    exists view. split; [exact Hrun|].
    apply (tenth_near_comp _ (spec_blended_strength (strength_lines mojito_db 1)));
      [reflexivity | exact Hnear].
  - destruct H2 as (views & Hrun & Hids & _).
    + intros row [<-|[]]. cbn. discriminate.
    + exists views. split; [exact Hrun | exact Hids].
Defined.

(** ** The verdict of the availability check, line by line *)

Lemma eval_check_line (d : DB) (line : Z * Q) :
  (line_ok d line /\ eval (check_line line) d = Return None)
  \/ (~ line_ok d line
      /\ eval (check_line line) d = Return (Some (false, line_reason d line))).
Proof.
  destruct line as [i need].
  unfold eval, run, check_line, bind, line_ok, line_reason.
  rewrite get_ingredient_by_id_run. cbn [db fst snd].
  destruct (select_ingredient i d) as [row|] eqn:Hrow; cbn.
  - destruct (Z.leb_spec (ing_quantity row) 0) as [Hq|Hq]; cbn.
    + right. split; [|reflexivity].
      intros (row' & E & Hpos & _). inversion E; subst. lia.
    + unfold Qltb.
      destruct (Qle_bool need _) eqn:Hle; cbn.
      * left. split; [|reflexivity].
        exists row. repeat split; [assumption|].
        now apply Qle_bool_iff.
      * right. split; [|reflexivity].
        intros (row' & E & _ & Hvol). inversion E; subst.
        apply Qle_bool_iff in Hvol. congruence.
  - right. split; [|reflexivity].
    intros (row' & E & _). discriminate E.
Qed.

(** The loop stops at the first line that does not pass, with that line's
    message; it runs to its end exactly when every line passes. *)
Lemma lines_verdict_cases (d : DB) (lines : list (Z * Q)) :
  (Forall (line_ok d) lines /\ lines_verdict d lines = Return None)
  \/ (exists passed line rest,
        lines = passed ++ line :: rest
        /\ Forall (line_ok d) passed
        /\ ~ line_ok d line
        /\ lines_verdict d lines
           = Return (Some (false, line_reason d line))).
Proof.
  unfold lines_verdict. induction lines as [|line lines IH].
  - left. split; [constructor | reflexivity].
  - assert (Hstep : eval (for_return (line :: lines) check_line) d
                    = match eval (check_line line) d with
                      | Return (Some r) => Return (Some r)
                      | Return None => eval (for_return lines check_line) d
                      | Raise e => Raise e
                      end).
    { unfold eval, run. cbn [for_return]. unfold bind.
      rewrite (read_only_check_line line (mk_World d [])).
      cbn [db snd].
      destruct (eval (check_line line) d) as [[r|]|e]; reflexivity. }
    rewrite Hstep.
    destruct (eval_check_line d line) as [[Hok E]|[Hbad E]]; rewrite E.
    + destruct IH as [[Hall Hv]|(passed & l & rest & -> & Hp & Hl & Hv)].
      * left. split; [now constructor | exact Hv].
      * right. exists (line :: passed), l, rest.
        repeat split; try assumption. now constructor.
    + right. exists [], line, lines. repeat split; [constructor | assumption].
Qed.

(** ** Stock never goes negative through sales and restocks *)

Lemma select_unique (d : DB) (r : ingredients_row) :
  NoDup (map ing_id (ingredients d)) -> In r (ingredients d) ->
  select_ingredient (ing_id r) d = Some r.
Proof.
  unfold select_ingredient. induction (ingredients d) as [|x l IH]; cbn.
  - tauto.
  - intros Hnd [->|Hin].
    + now rewrite Z.eqb_refl.
    + inversion Hnd as [|? ? Hx Hl]; subst.
      destruct (Z.eqb_spec (ing_id x) (ing_id r)) as [E|_].
      * exfalso. apply Hx. rewrite E. now apply in_map.
      * now apply IH.
Qed.

Lemma update_keeps_ledger (d : DB) (i delta : Z) :
  ledger_ok d ->
  ledger_ok (set_ingredients d
               (map (update_quantity_row delta i) (ingredients d))).
Proof.
  intros [Hnd Hvol]. split; cbn.
  - rewrite map_map.
    rewrite (map_ext _ ing_id (update_quantity_row_id delta i)). exact Hnd.
  - apply Forall_map. revert Hvol. apply Forall_impl.
    intros r. now rewrite update_quantity_row_volume.
Qed.

Lemma update_keeps_quantities (d : DB) (i delta : Z) :
  ledger_ok d -> quantities_ok d ->
  (forall row, select_ingredient i d = Some row ->
               0 <= ing_quantity row + delta) ->
  quantities_ok (set_ingredients d
                   (map (update_quantity_row delta i) (ingredients d))).
Proof.
  intros [Hnd _] Hq Hrow. unfold quantities_ok in *. cbn.
  apply Forall_map, Forall_forall. intros r Hin.
  destruct (Z.eq_dec (ing_id r) i) as [E|E].
  - rewrite update_quantity_row_same by exact E.
    apply Hrow. rewrite <- E. now apply select_unique.
  - rewrite update_quantity_row_other by exact E.
    rewrite Forall_forall in Hq. now apply Hq.
Qed.

(** [(need + unit - 1) // unit] never exceeds the units on hand once the
    volume on hand covers the need. *)
Lemma units_within_stock (need unit : Q) (q : Z) :
  (0 < unit)%Q -> (need <= inject_Z q * unit)%Q ->
  Qfloor ((need + unit - 1) / unit) <= q.
Proof.
  intros Hu Hneed.
  assert (Hlt : ((need + unit - 1) / unit < inject_Z (q + 1))%Q).
  { apply Qlt_shift_div_r; [exact Hu|].
    rewrite inject_Z_plus. change (inject_Z 1) with 1%Q.
    apply Qlt_le_trans with (inject_Z q * unit + unit)%Q; [lra|].
    ring_simplify. apply Qle_refl. }
  pose proof (Qfloor_le ((need + unit - 1) / unit)) as Hf.
  assert (H : (inject_Z (Qfloor ((need + unit - 1) / unit))
               < inject_Z (q + 1))%Q)
    by (eapply Qle_lt_trans; eassumption).
  rewrite <- Zlt_Qlt in H. lia.
Qed.

Lemma dict_set_keys_In (d : list (Z * Q)) (k x : Z) (v : Q) :
  In x (map fst (dict_set Z.eqb d k v)) <-> x = k \/ In x (map fst d).
Proof.
  induction d as [|[k' v'] d IH]; cbn.
  - intuition congruence.
  - destruct (Z.eqb_spec k' k) as [->|Hne]; cbn; [|rewrite IH];
      intuition congruence.
Qed.

Lemma dict_set_keys_NoDup (d : list (Z * Q)) (k : Z) (v : Q) :
  NoDup (map fst d) -> NoDup (map fst (dict_set Z.eqb d k v)).
Proof.
  induction d as [|[k' v'] d IH]; cbn; intros Hnd.
  - constructor; [tauto | constructor].
  - inversion Hnd as [|? ? Hk Hd]; subst.
    destruct (Z.eqb_spec k' k) as [->|Hne]; cbn.
    + now constructor.
    + constructor; [|now apply IH].
      rewrite dict_set_keys_In. intros [E|Hin]; [congruence | contradiction].
Qed.

Lemma recipe_of_NoDup (d : DB) (cocktail_id : Z) :
  NoDup (map fst (recipe_of d cocktail_id)).
Proof.
  unfold recipe_of, by_id_totals.
  assert (H : forall rows recipe ta tv,
             NoDup (map fst recipe) ->
             NoDup (map fst (fst (fst (fold_left cocktail_by_id_step rows
                                         (recipe, ta, tv)))))).
  { induction rows as [|r rows IH]; intros recipe ta tv Hnd;
      [exact Hnd|].
    cbn [fold_left]. unfold cocktail_by_id_step at 2.
    apply IH. now apply dict_set_keys_NoDup. }
  apply H. constructor.
Qed.

(** The depletion loop of [sell_cocktail] on lines that all passed the
    check, each on a different ingredient. *)
Lemma deplete_loop_keeps_stock (lines : list (Z * Q)) :
  forall w,
    NoDup (map fst lines) ->
    ledger_ok (db w) -> quantities_ok (db w) ->
    Forall (line_ok (db w)) lines ->
    ledger_ok (db (fst (for_each lines deplete_line w)))
    /\ quantities_ok (db (fst (for_each lines deplete_line w))).
Proof.
  induction lines as [|[i need] lines IH]; intros w Hnd Hl Hq Hok.
  - cbn. now split.
  - inversion Hnd as [|? ? Hi Hnd']; subst.
    inversion Hok as [|? ? (row & Hrow & Hpos & Hvol) Hok']; subst.
    cbn [fst snd] in Hrow, Hvol.
    assert (Hunit : (0 < ing_volume_ml row)%Q).
    { destruct Hl as [_ Hv]. rewrite Forall_forall in Hv.
      apply Hv. now apply select_ingredient_In in Hrow. }
    set (units := Qfloor ((need + ing_volume_ml row - 1) / ing_volume_ml row)).
    set (d1 := set_ingredients (db w)
                 (map (update_quantity_row (- units) i) (ingredients (db w)))).
    assert (Hstep : deplete_line (i, need) w
                    = (mk_World d1 (boxes w), Return tt)).
    { unfold deplete_line, bind. rewrite get_ingredient_by_id_run, Hrow.
      cbn [option_map Ingredient.of_row Ingredient.volume_ml].
      unfold units_needed, floordiv.
      assert (E : Qeq_bool (ing_volume_ml row) 0 = false).
      { destruct (Qeq_bool (ing_volume_ml row) 0) eqn:E; [|reflexivity].
        apply Qeq_bool_eq in E. rewrite E in Hunit.
        exfalso; revert Hunit; apply Qlt_irrefl. }
      rewrite E. unfold ret at 1.
      rewrite update_ingredient_quantity_run. reflexivity. }
    cbn [for_each]. unfold bind. rewrite Hstep.
    apply IH; cbn [db].
    + exact Hnd'.
    + now apply update_keeps_ledger.
    + apply update_keeps_quantities; [assumption..|].
      intros row' E. rewrite Hrow in E. inversion E; subst row'.
      pose proof (units_within_stock need (ing_volume_ml row)
                    (ing_quantity row) Hunit Hvol).
      fold units in H. lia.
    + rewrite Forall_forall in *. intros [j need_j] Hin.
      destruct (Hok' _ Hin) as (rowj & Hj & Hposj & Hvolj).
      exists rowj. split; [|now split].
      cbn [fst] in *. unfold d1. rewrite select_after_update_other; [exact Hj|].
      intros ->. apply Hi. change i with (fst (i, need_j)). now apply in_map.
Qed.

Lemma insert_sale_ingredients (item_type : string) (item_id : Z)
    (quantity total_price : Q) (date : string) (w : World) :
  ingredients (db (fst (insert_sale item_type item_id quantity total_price
                          date w)))
  = ingredients (db w).
Proof. reflexivity. Qed.

Lemma sell_cocktail_keeps_stock (now : string) (cocktail_id : Z) (w : World) :
  stock_ok (db w) -> stock_ok (db (fst (sell_cocktail now cocktail_id w))).
Proof.
  intros [Hl Hq]. unfold sell_cocktail, bind at 1.
  destruct (get_cocktail_by_id_cases cocktail_id w)
    as [[Hn Hrun] | (row & view & Hrow & Hrun & Hrec & _)]; rewrite Hrun.
  - cbn. now split.
  - unfold bind at 1.
    rewrite (check_cocktail_availability_found cocktail_id w row Hrow).
    destruct (lines_verdict_cases (db w) (recipe_of (db w) cocktail_id))
      as [[Hall Hv] | (passed & line & rest & _ & _ & _ & Hv)]; rewrite Hv.
    + cbn [negb]. rewrite Hrec.
      destruct (deplete_loop_keeps_stock (recipe_of (db w) cocktail_id) w
                  (recipe_of_NoDup (db w) cocktail_id) Hl Hq Hall)
        as [Hl' Hq'].
      unfold bind.
      destruct (for_each (recipe_of (db w) cocktail_id) deplete_line w)
        as [w1 [[]|e]]; cbn in *; now split.
    + cbn. now split.
Qed.

Lemma sell_ingredient_keeps_stock (now : string) (i quantity : Z)
    (w : World) :
  stock_ok (db w) -> stock_ok (db (fst (sell_ingredient now i quantity w))).
Proof.
  intros [Hl Hq]. unfold sell_ingredient, bind at 1.
  rewrite get_ingredient_by_id_run.
  destruct (select_ingredient i (db w)) as [row|] eqn:Hrow; cbn;
    [|now split].
  destruct (Z.ltb_spec (ing_quantity row) quantity) as [Hlt|Hge]; cbn;
    [now split|].
  split.
  - apply (update_keeps_ledger (db w) i (- quantity) Hl).
  - apply (update_keeps_quantities (db w) i (- quantity) Hl Hq).
    intros row' E. rewrite Hrow in E. inversion E; subst. lia.
Qed.

Lemma adjust_keeps_stock (i delta : Z) (w : World) :
  0 <= delta -> stock_ok (db w) ->
  stock_ok (db (fst (update_ingredient_quantity i delta w))).
Proof.
  intros Hd [Hl Hq]. rewrite update_ingredient_quantity_run. cbn [fst db].
  split; [now apply update_keeps_ledger|].
  apply update_keeps_quantities; [assumption..|].
  intros row Hrow. apply select_ingredient_In in Hrow.
  unfold quantities_ok in Hq. rewrite Forall_forall in Hq.
  specialize (Hq row Hrow). lia.
Qed.

Lemma restock_keeps_stock (i quantity : Z) (w : World) :
  0 <= quantity -> stock_ok (db w) ->
  stock_ok (db (fst (restock_ingredient i quantity w))).
Proof.
  intros Hd Hs. pose proof Hs as [Hl Hq].
  unfold restock_ingredient, bind at 1.
  rewrite get_ingredient_by_id_run.
  destruct (select_ingredient i (db w)) as [row|] eqn:Hrow; cbn;
    [|now split].
  apply (adjust_keeps_stock i quantity w Hd Hs).
Qed.

(** C1, the claim as stated fails: [update_ingredient_quantity] applies a
    negative delta to an ingredient with nothing on hand. *)
Lemma adjust_drives_quantity_negative :
  quantities_ok dry_db
  /\ exists w',
       exec_ops (mk_World dry_db []) [OpAdjust 2 (-1)] = w'
       /\ on_hand (db w') 2 = Some (-1)
       /\ ~ quantities_ok (db w').
Proof.
  split.
  - repeat constructor; cbn; lia.
  - eexists. split; [reflexivity|]. split; [reflexivity|].
    intros H. inversion H as [|? ? _ H']; subst.
    inversion H' as [|? ? Hneg _]; subst. cbn in Hneg. lia.
Qed.

(** C1, amended: from a database whose quantities are all non-negative
    (ingredient ids unique, unit volumes positive), any sequence of
    [sell_ingredient], [sell_cocktail], [restock_ingredient] with a
    non-negative quantity and [update_ingredient_quantity] with a
    non-negative delta leaves every quantity non-negative. *)
Theorem stock_never_negative (ops : list StockOp) (w : World) :
  ledger_ok (db w) -> quantities_ok (db w) ->
  Forall adds_stock ops ->
  quantities_ok (db (exec_ops w ops)).
Proof.
  revert w. induction ops as [|op ops IH]; intros w Hl Hq Hops.
  - exact Hq.
  - inversion Hops as [|? ? Hop Hops']; subst.
    assert (H : stock_ok (db (exec_op w op))).
    { assert (Hs : stock_ok (db w)) by now split.
      destruct op as [i delta|now i q|now c|i q]; cbn [exec_op adds_stock] in *.
      - now apply adjust_keeps_stock.
      - now apply sell_ingredient_keeps_stock.
      - now apply sell_cocktail_keeps_stock.
      - now apply restock_keeps_stock. }
    destruct H as [Hl' Hq'].
    cbn [exec_ops fold_left]. now apply IH.
Qed.

Lemma stock_never_negative_witness :
  quantities_ok
    (db (exec_ops (mk_World mojito_db [])
           [OpSellCocktail "2024-05-01 18:00:00" 1;
            OpSellIngredient "2024-05-01 18:05:00" 2 9;
            OpSellCocktail "2024-05-01 18:10:00" 1;
            OpRestock 2 4;
            OpAdjust 1 0;
            OpSellIngredient "2024-05-01 18:20:00" 1 50])).
Proof.
  apply stock_never_negative.
  - split.
    + cbn. repeat constructor; cbn; intuition discriminate.
    + repeat constructor.
  - repeat constructor; cbn; lia.
  - repeat constructor; cbn; lia.
Defined.

(** ** Availability on recipes whose ingredients are all stored *)


Lemma filter_id_absent (k : Z) (l : list ingredients_row) :
  ~ In k (map ing_id l) -> filter (fun i => k =? ing_id i) l = [].
Proof.
  induction l as [|x l IH]; cbn; [reflexivity|]. intros H.
  destruct (Z.eqb_spec k (ing_id x)) as [E|_]; [exfalso; auto|].
  apply IH. tauto.
Qed.

Lemma filter_id_unique (l : list ingredients_row) (row : ingredients_row) :
  NoDup (map ing_id l) -> In row l ->
  filter (fun i => ing_id row =? ing_id i) l = [row].
Proof.
  induction l as [|x l IH]; cbn; [tauto|].
  intros Hnd Hin. inversion Hnd as [|? ? Hx Hl]; subst.
  destruct Hin as [->|Hin].
  - rewrite Z.eqb_refl. f_equal. now apply filter_id_absent.
  - destruct (Z.eqb_spec (ing_id row) (ing_id x)) as [E|_].
    + exfalso. apply Hx. rewrite <- E. now apply in_map.
    + now apply IH.
Qed.

Lemma dict_set_fresh (d : list (Z * Q)) (k : Z) (v : Q) :
  ~ In k (map fst d) -> dict_set Z.eqb d k v = d ++ [(k, v)].
Proof.
  induction d as [|[k' v'] d IH]; cbn; [reflexivity|]. intros H.
  destruct (Z.eqb_spec k' k) as [E|_]; [exfalso; auto|].
  f_equal. apply IH. tauto.
Qed.

Lemma by_id_fold_recipe (rows : list (recipes_row * ingredients_row)) :
  forall recipe ta tv,
    NoDup (map fst recipe ++ map fst (map join_line rows)) ->
    fst (fst (fold_left cocktail_by_id_step rows (recipe, ta, tv)))
    = recipe ++ map join_line rows.
Proof.
  induction rows as [|r rows IH]; intros recipe ta tv Hnd.
  - cbn. now rewrite app_nil_r.
  - cbn [fold_left]. unfold cocktail_by_id_step at 2.
    cbn [map] in Hnd.
    assert (Hfresh : ~ In (ing_id (snd r)) (map fst recipe)).
    { apply NoDup_remove_2 in Hnd. intros Hin. apply Hnd.
      apply in_or_app. now left. }
    rewrite dict_set_fresh by exact Hfresh.
    rewrite IH.
    + cbn [map]. now rewrite <- app_assoc.
    + rewrite map_app, <- app_assoc. exact Hnd.
Qed.

Lemma join_intact (l : list ingredients_row) (rs : list recipes_row) :
  NoDup (map ing_id l) ->
  Forall (fun r => In (rc_ingredient_id r) (map ing_id l)) rs ->
  map join_line
    (flat_map (fun r => map (pair r)
                          (filter (fun i => rc_ingredient_id r =? ing_id i) l))
       rs)
  = map (fun r => (rc_ingredient_id r, rc_volume_ml r)) rs.
Proof.
  intros Hnd. induction rs as [|r rs IH]; intros Hall; [reflexivity|].
  inversion Hall as [|? ? Hr Hrs]; subst.
  apply in_map_iff in Hr. destruct Hr as (row & E & Hin).
  cbn [flat_map]. rewrite map_app, (IH Hrs), <- E.
  rewrite (filter_id_unique l row Hnd Hin).
  cbn. unfold join_line. cbn. now rewrite E.
Qed.


(** The index search returns the rows it was given, in ascending key. *)
Section IndexOrderFacts.
Context {R : Type} (key : R -> Z).

Lemma insert_by_key_Permutation (x : R) (l : list R) :
  Permutation (insert_by_key key x l) (x :: l).
Proof.
  induction l as [|y l IH]; cbn; [reflexivity|].
  destruct (key x <=? key y); [reflexivity|].
  rewrite IH. apply perm_swap.
Qed.

Lemma index_order_Permutation (l : list R) :
  Permutation (index_order key l) l.
Proof.
  unfold index_order. induction l as [|x l IH]; cbn; [reflexivity|].
  rewrite insert_by_key_Permutation. now constructor.
Qed.

Lemma insert_by_key_Sorted (x : R) (l : list R) :
  Sorted (fun a b => key a <= key b) l ->
  Sorted (fun a b => key a <= key b) (insert_by_key key x l).
Proof.
  induction l as [|y l IH]; cbn; intros Hs.
  - repeat constructor.
  - destruct (Z.leb_spec (key x) (key y)) as [E|E].
    + constructor; [exact Hs|]. now constructor.
    + inversion Hs as [|? ? Hl Hhd]; subst.
      constructor; [now apply IH|].
      destruct l as [|z l]; cbn; [constructor; lia|].
      destruct (key x <=? key z); constructor;
        [lia | now inversion Hhd].
Qed.

Lemma index_order_Sorted (l : list R) :
  Sorted (fun a b => key a <= key b) (index_order key l).
Proof.
  unfold index_order. induction l as [|x l IH]; cbn; [constructor|].
  now apply insert_by_key_Sorted.
Qed.
End IndexOrderFacts.

Lemma insert_by_key_map {A B : Type} (f : A -> B) (kA : A -> Z) (kB : B -> Z)
    (x : A) (l : list A) :
  (forall a, kB (f a) = kA a) ->
  insert_by_key kB (f x) (map f l) = map f (insert_by_key kA x l).
Proof.
  intros Hk. induction l as [|y l IH]; cbn; [reflexivity|].
  rewrite !Hk. destruct (kA x <=? kA y); cbn; [reflexivity|].
  now rewrite IH.
Qed.

Lemma index_order_map {A B : Type} (f : A -> B) (kA : A -> Z) (kB : B -> Z)
    (l : list A) :
  (forall a, kB (f a) = kA a) ->
  index_order kB (map f l) = map f (index_order kA l).
Proof.
  intros Hk. unfold index_order.
  induction l as [|x l IH]; cbn; [reflexivity|].
  rewrite IH. now apply insert_by_key_map.
Qed.

(** On an intact recipe the join loses no line: what the read returns is
    what the table stores, in ascending ingredient id. *)
Lemma recipe_of_intact (d : DB) (cocktail_id : Z) :
  recipe_intact d cocktail_id ->
  recipe_of d cocktail_id = stored_lines d cocktail_id.
Proof.
  intros (Hpk & Hlines & Hfk).
  assert (Hjoin : map join_line (select_recipe_join cocktail_id d)
                  = stored_lines d cocktail_id).
  { unfold select_recipe_join, stored_lines. apply join_intact; [exact Hpk|].
    unfold stored_lines in Hfk. rewrite Forall_map in Hfk. exact Hfk. }
  unfold recipe_of, by_id_totals.
  rewrite by_id_fold_recipe; rewrite Hjoin; [reflexivity | exact Hlines].
Qed.


(** ** Units for whole-millilitre volumes *)

Lemma ceiling_division (n p : Z) :
  0 < p -> (n + p - 1) / p = - ((- n) / p).
Proof.
  intros Hp.
  pose proof (Z.div_mod (- n) p ltac:(lia)) as Hdm.
  pose proof (Z.mod_pos_bound (- n) p Hp) as Hr.
  symmetry. apply Z.div_unique with (p - 1 - (- n) mod p); [lia|].
  nia.
Qed.

(** X3: when the required volume and the unit volume are whole numbers of
    millilitres, [(need + unit - 1) // unit] is the ceiling of
    [need / unit]. *)
Lemma units_needed_whole (n v : Z) (d : DB) :
  0 < v ->
  eval (units_needed (inject_Z n) (inject_Z v)) d
  = Return (Qceiling (inject_Z n / inject_Z v)).
Proof.
  intros Hv. destruct v as [|p|p]; try lia.
  unfold eval, run, units_needed, floordiv.
  change (Qeq_bool (inject_Z (Z.pos p)) 0) with false.
  cbn [ret snd]. f_equal.
  assert (E1 : ((inject_Z n + inject_Z (Z.pos p) - 1) / inject_Z (Z.pos p)
                == (n + Z.pos p - 1) # p)%Q).
  { rewrite (Qmake_Qdiv (n + Z.pos p - 1) p).
    apply Qdiv_comp; [|reflexivity].
    unfold Z.sub. rewrite !inject_Z_plus. reflexivity. }
  assert (E2 : (inject_Z n / inject_Z (Z.pos p) == n # p)%Q)
    by (symmetry; apply Qmake_Qdiv).
  rewrite (Qfloor_comp _ _ E1). unfold Qceiling.
  assert (E3 : (- (inject_Z n / inject_Z (Z.pos p)) == (- n) # p)%Q)
    by (rewrite E2; reflexivity).
  rewrite (Qfloor_comp _ _ E3). unfold Qfloor.
  now apply ceiling_division.
Qed.

(** * Further properties of the database layer *)

(** ** The availability check *)

(** X1: [check_cocktail_availability] never raises and leaves the world as
    it found it: it writes nothing to the database and shows no message
    box.  It answers "cocktail not found" exactly for an id that is not
    stored, and its positive answer always carries the "available"
    message. *)
Theorem check_cocktail_availability_pure (cocktail_id : Z) (w : World) :
  exists available msg,
    check_cocktail_availability cocktail_id w = (w, Return (available, msg))
    /\ (select_cocktail cocktail_id (db w) = None ->
        available = false /\ msg = MsgCocktailNotFound)
    /\ (available = true -> msg = MsgAvailable)
    /\ (select_cocktail cocktail_id (db w) <> None ->
        msg <> MsgCocktailNotFound).
Proof.
  destruct (select_cocktail cocktail_id (db w)) as [row|] eqn:Hrow.
  - rewrite (check_cocktail_availability_found cocktail_id w row Hrow).
    destruct (lines_verdict_cases (db w) (recipe_of (db w) cocktail_id))
      as [[_ Hv] | (passed & line & rest & _ & _ & _ & Hv)]; rewrite Hv.
    + exists true, MsgAvailable. repeat split; discriminate.
    + exists false, (line_reason (db w) line).
      repeat split; try discriminate.
      intros _. unfold line_reason.
      destruct (select_ingredient (fst line) (db w)) as [r|];
        [destruct (ing_quantity r <=? 0)|]; discriminate.
  - rewrite (check_cocktail_availability_not_found cocktail_id w Hrow).
    exists false, MsgCocktailNotFound.
    repeat split; try discriminate. intros H; now contradiction H.
Qed.

Lemma check_cocktail_availability_pure_witness :
  exists msg,
    check_cocktail_availability 9 (mk_World mojito_db [])
    = (mk_World mojito_db [], Return (false, msg))
    /\ msg = MsgCocktailNotFound.
Proof.
  destruct (check_cocktail_availability_pure 9 (mk_World mojito_db []))
    as (available & msg & Hrun & Hnone & _).
  destruct (Hnone eq_refl) as [-> ->].
  exists MsgCocktailNotFound. split; [exact Hrun | reflexivity].
Defined.


(** X3, witness: 120 ml on units of 50 ml. *)
Lemma units_needed_whole_witness :
  eval (units_needed (inject_Z 120) (inject_Z 50)) empty_db
  = Return (Qceiling (inject_Z 120 / inject_Z 50))
  /\ Qceiling (inject_Z 120 / inject_Z 50) = 3.
Proof.
  split; [|reflexivity].
  apply (units_needed_whole 120 50 empty_db). lia.
Defined.

(** ** The quantity update *)

Lemma filter_select_empty (i : Z) (d : DB) :
  select_ingredient i d = None <->
  filter (fun r => ing_id r =? i) (ingredients d) = [].
Proof.
  unfold select_ingredient.
  induction (ingredients d) as [|r l IH]; cbn; [tauto|].
  destruct (ing_id r =? i); [split; discriminate | exact IH].
Qed.

Lemma update_absent_rows (delta i : Z) (l : list ingredients_row) :
  filter (fun r => ing_id r =? i) l = [] ->
  map (update_quantity_row delta i) l = l.
Proof.
  induction l as [|r l IH]; cbn; [reflexivity|].
  unfold update_quantity_row at 1.
  destruct (ing_id r =? i); [discriminate|].
  intros H. now rewrite IH.
Qed.

Lemma update_update_rows (a b i : Z) (l : list ingredients_row) :
  map (update_quantity_row b i) (map (update_quantity_row a i) l)
  = map (update_quantity_row (a + b) i) l.
Proof.
  rewrite map_map. apply map_ext. intros r.
  unfold update_quantity_row at 2 3.
  destruct (ing_id r =? i) eqn:E.
  - unfold update_quantity_row. cbn. rewrite E. now rewrite Z.add_assoc.
  - unfold update_quantity_row. now rewrite E.
Qed.

Lemma db_eta (d : DB) :
  mk_DB (ingredients d) (cocktails d) (recipes d) (sales d) = d.
Proof. now destruct d. Qed.

Lemma world_eta (w : World) : mk_World (db w) (boxes w) = w.
Proof. now destruct w. Qed.

(** X4: [update_ingredient_quantity] returns [True] exactly when the
    ingredient is stored; on an id that is not stored it changes nothing;
    and two updates of one ingredient in a row leave the database that one
    update by the sum of the deltas leaves. *)
Theorem update_ingredient_quantity_effect (i a b : Z) (w : World) :
  (snd (update_ingredient_quantity i a w) = Return true
   <-> select_ingredient i (db w) <> None)
  /\ (select_ingredient i (db w) = None ->
      update_ingredient_quantity i a w = (w, Return false))
  /\ fst (update_ingredient_quantity i b
            (fst (update_ingredient_quantity i a w)))
     = fst (update_ingredient_quantity i (a + b) w).
Proof.
  rewrite !update_ingredient_quantity_run. cbn [fst snd db boxes].
  split; [|split].
  - rewrite filter_select_empty.
    destruct (filter _ (ingredients (db w))) as [|r l]; cbn.
    + split; [discriminate | intros H; now contradiction H].
    + split; [discriminate | reflexivity].
  - intros Hnone. apply filter_select_empty in Hnone.
    rewrite Hnone, update_absent_rows by exact Hnone. cbn.
    unfold set_ingredients. now rewrite db_eta, world_eta.
  - unfold set_ingredients. cbn. now rewrite update_update_rows.
Qed.

Lemma update_ingredient_quantity_effect_witness :
  update_ingredient_quantity 7 3 (mk_World rum_db [])
  = (mk_World rum_db [], Return false).
Proof.
  apply (update_ingredient_quantity_effect 7 3 0 (mk_World rum_db [])).
  reflexivity.
Defined.

(** ** Adding an ingredient and reading it back *)

Lemma next_rowid_fresh (ids : list Z) : ~ In (next_rowid ids) ids.
Proof.
  assert (Hmax : forall l x, In x l -> x <= fold_right Z.max 0 l).
  { induction l as [|y l IH]; cbn; [tauto|].
    intros x [->|Hx]; [lia | specialize (IH x Hx); lia]. }
  intros Hin. apply Hmax in Hin. unfold next_rowid in Hin. lia.
Qed.

Lemma find_id_absent (i : Z) (l : list ingredients_row) :
  ~ In i (map ing_id l) -> find (fun r => ing_id r =? i) l = None.
Proof.
  induction l as [|r l IH]; cbn; [reflexivity|]. intros H.
  destruct (Z.eqb_spec (ing_id r) i) as [E|_]; [exfalso; auto|].
  apply IH. tauto.
Qed.

Lemma find_app_last {A : Type} (f : A -> bool) (l : list A) (x : A) :
  find f (l ++ [x])
  = match find f l with
    | Some y => Some y
    | None => if f x then Some x else None
    end.
Proof.
  induction l as [|y l IH]; cbn; [reflexivity|].
  destruct (f y); [reflexivity | exact IH].
Qed.

(** X5: after [add_ingredient] has stored an ingredient under a new name,
    [get_ingredient_by_id] on the returned id gives back the supplied
    fields, with that id; and every ingredient that could be read before
    still reads the same. *)
Theorem add_then_get_ingredient (ingredient : Ingredient.t) (w : World) :
  ~ In (Ingredient.name ingredient) (map ing_name (ingredients (db w))) ->
  exists rowid w',
    add_ingredient ingredient w = (w', Return rowid)
    /\ get_ingredient_by_id rowid w'
       = (w', Return (Some (Ingredient.mk (Some rowid)
                              (Ingredient.name ingredient)
                              (Ingredient.alcohol_percent ingredient)
                              (Ingredient.volume_ml ingredient)
                              (Ingredient.quantity ingredient)
                              (Ingredient.price_per_unit ingredient))))
    /\ (forall j row,
          select_ingredient j (db w) = Some row ->
          get_ingredient_by_id j w'
          = (w', Return (Some (Ingredient.of_row row)))).
Proof.
  intros Hname. apply existsb_name_not_In in Hname.
  eexists; eexists. split.
  - unfold add_ingredient, insert_ingredient; unfold_monad; cbn.
    rewrite Hname. reflexivity.
  - split.
    + rewrite get_ingredient_by_id_run. unfold select_ingredient. cbn.
      rewrite find_app_last, find_id_absent by apply next_rowid_fresh.
      cbn. rewrite Z.eqb_refl. reflexivity.
    + intros j row Hrow. rewrite get_ingredient_by_id_run.
      unfold select_ingredient in *. cbn.
      rewrite find_app_last, Hrow. reflexivity.
Qed.

Lemma add_then_get_ingredient_witness :
  exists rowid w',
    add_ingredient (Ingredient.mk None "Gin" 47 500 6 25)
      (mk_World rum_db [])
    = (w', Return rowid)
    /\ get_ingredient_by_id rowid w'
       = (w', Return (Some (Ingredient.mk (Some rowid) "Gin" 47 500 6 25))).
Proof.
  destruct (add_then_get_ingredient (Ingredient.mk None "Gin" 47 500 6 25)
              (mk_World rum_db []))
    as (rowid & w' & Hadd & Hget & _).
  - cbn. intros [H|[]]. discriminate H.
  - exists rowid, w'. split; [exact Hadd | exact Hget].
Defined.

(** ** Restocking and selling the same quantity *)

Lemma update_zero_rows (i : Z) (l : list ingredients_row) :
  map (update_quantity_row 0 i) l = l.
Proof.
  rewrite <- (map_id l) at 2. apply map_ext. intros r.
  unfold update_quantity_row. destruct (ing_id r =? i); [|reflexivity].
  rewrite Z.add_0_r. now destruct r.
Qed.

(** X6: on a stored ingredient whose quantity is not negative,
    [restock_ingredient] followed by [sell_ingredient] of the same quantity
    both succeed and bring the ingredient table back to what it was; the
    one trace in the database is the sale, charged at quantity times unit
    price. *)
Theorem restock_then_sell_restores (now : string) (i k : Z) (w : World)
    (row : ingredients_row) :
  select_ingredient i (db w) = Some row ->
  0 <= ing_quantity row ->
  exists w1 w2,
    restock_ingredient i k w = (w1, Return true)
    /\ sell_ingredient now i k w1 = (w2, Return true)
    /\ ingredients (db w2) = ingredients (db w)
    /\ cocktails (db w2) = cocktails (db w)
    /\ recipes (db w2) = recipes (db w)
    /\ sales (db w2)
       = sales (db w)
         ++ [mk_sales_row (next_rowid (map sl_id (sales (db w))))
               "ingredient" i (inject_Z k)
               (inject_Z k * ing_price_per_unit row) now].
Proof.
  intros Hrow Hq.
  eexists; eexists. split.
  - unfold restock_ingredient, bind.
    rewrite get_ingredient_by_id_run, Hrow. cbn. reflexivity.
  - split.
    + unfold sell_ingredient, bind.
      rewrite get_ingredient_by_id_run. cbn [db].
      rewrite select_after_update, Hrow. cbn [option_map].
      assert (Eid : ing_id row = i) by now apply select_ingredient_id in Hrow.
      unfold update_quantity_row at 1 2 3. rewrite Eid, Z.eqb_refl.
      cbn [Ingredient.of_row Ingredient.quantity Ingredient.name
           Ingredient.price_per_unit ing_quantity ing_name
           ing_price_per_unit ing_id ing_alcohol_percent ing_volume_ml].
      destruct (Z.ltb_spec (ing_quantity row + k) k) as [Hlt|_]; [lia|].
      cbn. reflexivity.
    + cbn. repeat split.
      * rewrite update_update_rows, Z.add_opp_diag_r. apply update_zero_rows.
      * unfold update_quantity_row.
        destruct (ing_id row =? i); reflexivity.
Qed.

Lemma restock_then_sell_restores_witness :
  exists w1 w2,
    restock_ingredient 1 4 (mk_World rum_db []) = (w1, Return true)
    /\ sell_ingredient "2024-05-01 18:00:00" 1 4 w1 = (w2, Return true)
    /\ ingredients (db w2) = ingredients rum_db.
Proof.
  destruct (restock_then_sell_restores "2024-05-01 18:00:00" 1 4
              (mk_World rum_db [])
              (mk_ingredients_row 1 "Rum" 40 700 12 20) eq_refl)
    as (w1 & w2 & H1 & H2 & H3 & _).
  - cbn. lia.
  - exists w1, w2. split; [exact H1|]. split; [exact H2 | exact H3].
Defined.

(** ** What the stock operations leave alone *)

Lemma update_quantity_row_identity (delta i : Z) (r : ingredients_row) :
  ingredient_identity (update_quantity_row delta i r) = ingredient_identity r.
Proof. unfold update_quantity_row; destruct (ing_id r =? i); reflexivity. Qed.

Lemma same_catalogue_refl (d : DB) : same_catalogue d d.
Proof. now repeat split. Qed.

Lemma same_catalogue_trans (d1 d2 d3 : DB) :
  same_catalogue d1 d2 -> same_catalogue d2 d3 -> same_catalogue d1 d3.
Proof.
  intros (A1 & A2 & A3) (B1 & B2 & B3).
  repeat split; congruence.
Qed.

Lemma same_catalogue_update (d : DB) (delta i : Z) :
  same_catalogue d
    (set_ingredients d (map (update_quantity_row delta i) (ingredients d))).
Proof.
  repeat split. cbn. rewrite map_map. apply map_ext.
  intros r. apply update_quantity_row_identity.
Qed.

(** A step that keeps the message boxes, the sales and the catalogue. *)
Lemma deplete_line_frame (line : Z * Q) (w : World) :
  boxes (fst (deplete_line line w)) = boxes w
  /\ sales (db (fst (deplete_line line w))) = sales (db w)
  /\ same_catalogue (db w) (db (fst (deplete_line line w))).
Proof.
  destruct line as [i need]. unfold deplete_line, bind.
  rewrite get_ingredient_by_id_run.
  destruct (select_ingredient i (db w)) as [row|]; cbn;
    [|repeat split].
  unfold units_needed, floordiv.
  destruct (Qeq_bool (ing_volume_ml row) 0); cbn; [repeat split|].
  split; [reflexivity|]. split; [reflexivity|].
  apply same_catalogue_update.
Qed.

Lemma deplete_loop_frame (lines : list (Z * Q)) :
  forall w,
    boxes (fst (for_each lines deplete_line w)) = boxes w
    /\ sales (db (fst (for_each lines deplete_line w))) = sales (db w)
    /\ same_catalogue (db w) (db (fst (for_each lines deplete_line w))).
Proof.
  induction lines as [|line lines IH]; intros w.
  - cbn. split; [reflexivity|]. split; [reflexivity|].
    apply same_catalogue_refl.
  - cbn [for_each]. unfold bind.
    destruct (deplete_line_frame line w) as (B & S & C).
    destruct (deplete_line line w) as [w1 [[]|e]]; cbn [fst] in *.
    + destruct (IH w1) as (B' & S' & C').
      split; [congruence|]. split; [congruence|].
      eapply same_catalogue_trans; eassumption.
    + split; [exact B|]. split; [exact S | exact C].
Qed.

(** The sales table after [sell_cocktail]: one more row, or none. *)
Lemma op_frame_same (w : World) (b : list MessageBox) :
  op_frame w (mk_World (db w) b).
Proof.
  split; [apply same_catalogue_refl|].
  exists []. split; [now rewrite app_nil_r | now left].
Qed.

Lemma sell_cocktail_frame (now : string) (cocktail_id : Z) (w : World) :
  op_frame w (fst (sell_cocktail now cocktail_id w)).
Proof.
  unfold sell_cocktail, bind at 1.
  destruct (get_cocktail_by_id_cases cocktail_id w)
    as [[_ Hrun] | (row & view & _ & Hrun & _)]; rewrite Hrun.
  - cbn -[op_frame]. apply op_frame_same.
  - unfold bind at 1.
    rewrite (read_only_check_cocktail_availability cocktail_id w).
    destruct (eval (check_cocktail_availability cocktail_id) (db w))
      as [[[|] msg]|e]; cbn -[op_frame].
    + unfold bind.
      destruct (deplete_loop_frame (cv_recipe view) w) as (_ & S & C).
      destruct (for_each (cv_recipe view) deplete_line w) as [w1 [[]|e]];
        cbn [fst] in *.
      * cbn. split.
        -- destruct C as (C1 & C2 & C3). now repeat split.
        -- eexists. rewrite S. split; [reflexivity|].
           right. eexists. split; reflexivity.
      * split; [exact C|].
        exists []. split; [now rewrite app_nil_r | now left].
    + apply op_frame_same.
    + rewrite <- (world_eta w) at 2. apply op_frame_same.
Qed.

Lemma op_frame_update (w : World) (delta i : Z) :
  op_frame w
    (mk_World (set_ingredients (db w)
                 (map (update_quantity_row delta i) (ingredients (db w))))
              (boxes w)).
Proof.
  split; [apply same_catalogue_update|].
  exists []. split; [now rewrite app_nil_r | now left].
Qed.

Lemma exec_op_frame (op : StockOp) (w : World) :
  op_frame w (exec_op w op).
Proof.
  destruct op as [i delta|now i q|now c|i q]; cbn [exec_op].
  - rewrite update_ingredient_quantity_run. apply op_frame_update.
  - unfold sell_ingredient, bind at 1. rewrite get_ingredient_by_id_run.
    destruct (select_ingredient i (db w)) as [row|]; cbn -[op_frame];
      [|apply op_frame_same].
    destruct (ing_quantity row <? q); cbn -[op_frame];
      [apply op_frame_same|].
    split.
    + destruct (same_catalogue_update (db w) (- q) i) as (C1 & C2 & C3).
      now repeat split.
    + eexists. split; [reflexivity|].
      right. eexists. split; reflexivity.
  - apply sell_cocktail_frame.
  - unfold restock_ingredient, bind at 1. rewrite get_ingredient_by_id_run.
    destruct (select_ingredient i (db w)) as [row|]; cbn -[op_frame];
      [|apply op_frame_same].
    split; [apply same_catalogue_update|].
    exists []. split; [now rewrite app_nil_r | now left].
Qed.

(** X7: no sequence of quantity updates, sales and restocks adds, removes
    or reorders an ingredient, or changes its id, name, strength, unit
    volume or price; and none touches the cocktails or the recipe lines. *)
Theorem stock_ops_keep_catalogue (ops : list StockOp) (w : World) :
  cocktails (db (exec_ops w ops)) = cocktails (db w)
  /\ recipes (db (exec_ops w ops)) = recipes (db w)
  /\ map ingredient_identity (ingredients (db (exec_ops w ops)))
     = map ingredient_identity (ingredients (db w)).
Proof.
  change (same_catalogue (db w) (db (exec_ops w ops))).
  revert w. induction ops as [|op ops IH]; intros w.
  - apply same_catalogue_refl.
  - cbn [exec_ops fold_left]. eapply same_catalogue_trans; [|apply IH].
    apply (exec_op_frame op w).
Qed.

(** X8: the sales table is append-only under any sequence of quantity
    updates, sales and restocks: the rows it had stay, in place and
    unchanged, and each operation adds at most one row. *)
Theorem sales_ledger_append_only (ops : list StockOp) (w : World) :
  exists added,
    sales (db (exec_ops w ops)) = sales (db w) ++ added
    /\ (List.length added <= List.length ops)%nat.
Proof.
  revert w. induction ops as [|op ops IH]; intros w.
  - exists []. cbn. split; [now rewrite app_nil_r | lia].
  - cbn [exec_ops fold_left].
    destruct (exec_op_frame op w) as (_ & a1 & E1 & L1).
    destruct (IH (exec_op w op)) as (a2 & E2 & L2).
    exists (a1 ++ a2). unfold exec_ops in E2. rewrite E2, E1, app_assoc.
    split; [reflexivity|]. rewrite length_app.
    destruct L1 as [->|(s & -> & _)]; cbn; lia.
Qed.

(** ** A cocktail sale that goes through *)




Lemma line_ok_stored (d : DB) (lines : list (Z * Q)) :
  Forall (line_ok d) lines ->
  Forall (fun line => select_ingredient (fst line) d <> None) lines.
Proof.
  apply Forall_impl. intros line (row & Hrow & _). congruence.
Qed.







(** ** Adding a cocktail and reading it back *)

(** The loop of [add_cocktail] when no line clashes with a stored one. *)
Lemma insert_recipe_loop (cocktail_id : Z) (recipe : list (Z * Q)) :
  forall w,
    NoDup (map fst recipe) ->
    (forall r, In r (recipes (db w)) -> rc_cocktail_id r = cocktail_id ->
               ~ In (rc_ingredient_id r) (map fst recipe)) ->
    for_each recipe
      (fun '(ing_id', volume) => insert_recipe cocktail_id ing_id' volume) w
    = (mk_World
         (set_recipes (db w)
            (recipes (db w) ++ map (recipe_row cocktail_id) recipe))
         (boxes w),
       Return tt).
Proof.
  induction recipe as [|[i v] recipe IH]; intros w Hnd Hfree.
  - cbn. rewrite app_nil_r. unfold set_recipes.
    now rewrite db_eta, world_eta.
  - inversion Hnd as [|? ? Hi Hnd']; subst.
    cbn [for_each]. unfold bind at 1.
    assert (Hclash :
      existsb (fun r => (rc_cocktail_id r =? cocktail_id)
                        && (rc_ingredient_id r =? i)) (recipes (db w))
      = false).
    { destruct (existsb _ (recipes (db w))) eqn:E; [|reflexivity].
      apply existsb_exists in E. destruct E as (r & Hin & Hr).
      apply andb_true_iff in Hr. destruct Hr as [Hc Hk].
      apply Z.eqb_eq in Hc, Hk. exfalso.
      apply (Hfree r Hin Hc). rewrite Hk. now left. }
    unfold insert_recipe at 1. unfold_monad. cbn [db]. rewrite Hclash.
    cbn [db boxes].
    rewrite IH; [|exact Hnd'|].
    + cbn [db boxes recipes set_recipes]. unfold set_recipes. cbn.
      now rewrite <- app_assoc.
    + cbn [db recipes set_recipes]. intros r Hin Hc.
      apply in_app_or in Hin. destruct Hin as [Hin|[<-|[]]].
      * intros Hk. apply (Hfree r Hin Hc). now right.
      * exact Hi.
Qed.

Lemma find_cocktail_absent (i : Z) (l : list cocktails_row) :
  ~ In i (map ck_id l) -> find (fun r => ck_id r =? i) l = None.
Proof.
  induction l as [|r l IH]; cbn; [reflexivity|]. intros H.
  destruct (Z.eqb_spec (ck_id r) i) as [E|_]; [exfalso; auto|].
  apply IH. tauto.
Qed.

Lemma filter_recipes_new (cocktail_id : Z) (old : list recipes_row)
    (recipe : list (Z * Q)) :
  (forall r, In r old -> rc_cocktail_id r <> cocktail_id) ->
  filter (fun r => rc_cocktail_id r =? cocktail_id)
    (old ++ map (recipe_row cocktail_id) recipe)
  = map (recipe_row cocktail_id) recipe.
Proof.
  intros Hold. rewrite filter_app.
  assert (E1 : filter (fun r => rc_cocktail_id r =? cocktail_id) old = []).
  { induction old as [|r old IH]; cbn; [reflexivity|].
    destruct (Z.eqb_spec (rc_cocktail_id r) cocktail_id) as [E|_].
    - exfalso. apply (Hold r); [now left | exact E].
    - apply IH. intros r' Hin. apply Hold. now right. }
  rewrite E1. cbn [app].
  induction recipe as [|[i v] recipe IH]; cbn; [reflexivity|].
  rewrite Z.eqb_refl. now rewrite IH.
Qed.

(** The lines stored for a new cocktail are the items of its recipe, in
    ascending ingredient id. *)
Lemma stored_lines_new (cocktail_id : Z) (d : DB) (recipe : list (Z * Q)) :
  (forall r, In r (recipes d) -> rc_cocktail_id r <> cocktail_id) ->
  stored_lines
    (set_recipes d (recipes d ++ map (recipe_row cocktail_id) recipe))
    cocktail_id
  = index_order fst recipe.
Proof.
  intros Hold. unfold stored_lines, select_recipe_lines. cbn [recipes set_recipes].
  rewrite (filter_recipes_new cocktail_id (recipes d) recipe Hold).
  rewrite (index_order_map (recipe_row cocktail_id) fst rc_ingredient_id)
    by reflexivity.
  rewrite map_map. cbn.
  induction (index_order fst recipe) as [|[i v] l IH]; cbn;
    [reflexivity | now rewrite IH].
Qed.

(** X11: [add_cocktail] under a new name, with a recipe whose ingredients
    are all stored, succeeds, and [get_cocktail_by_id] on the returned id
    gives the cocktail back: that id, the name, the price, and the lines of
    the recipe, each once and with its volume, in ascending ingredient id
    (the order of the index the read goes through), whatever the order of
    the items of the dictionary that was stored. *)
Theorem add_then_get_cocktail (name : string) (price : Q)
    (recipe : list (Z * Q)) (w : World) :
  ~ In name (map ck_name (cocktails (db w))) ->
  NoDup (map fst recipe) ->
  NoDup (map ing_id (ingredients (db w))) ->
  Forall (fun line => In (fst line) (map ing_id (ingredients (db w)))) recipe ->
  Forall (fun r => In (rc_cocktail_id r) (map ck_id (cocktails (db w))))
         (recipes (db w)) ->
  exists cocktail_id w' view,
    add_cocktail name price recipe w = (w', Return cocktail_id)
    /\ get_cocktail_by_id cocktail_id w' = (w', Return (Some view))
    /\ cv_id view = cocktail_id
    /\ cv_name view = name
    /\ cv_price view = price
    /\ cv_recipe view = index_order fst recipe
    /\ Permutation (cv_recipe view) recipe
    /\ Sorted line_id_le (cv_recipe view).
Proof.
  intros Hname Hkeys Hpk Hfk Hown.
  apply existsb_name_not_In in Hname.
  set (cid := next_rowid (map ck_id (cocktails (db w)))).
  assert (Hfresh : ~ In cid (map ck_id (cocktails (db w))))
    by apply next_rowid_fresh.
  assert (Hold : forall r, In r (recipes (db w)) -> rc_cocktail_id r <> cid).
  { intros r Hin E. rewrite Forall_forall in Hown.
    apply Hfresh. rewrite <- E. now apply Hown. }
  set (d1 := set_cocktails (db w)
               (cocktails (db w) ++ [mk_cocktails_row cid name price])).
  set (d2 := set_recipes d1 (recipes d1 ++ map (recipe_row cid) recipe)).
  assert (Hadd : add_cocktail name price recipe w
                 = (mk_World d2 (boxes w), Return cid)).
  { unfold add_cocktail, try_except, bind at 1.
    unfold insert_cocktail. unfold_monad. cbn [db]. rewrite Hname.
    cbn [db boxes]. fold cid. fold d1.
    rewrite (insert_recipe_loop cid recipe (mk_World d1 (boxes w)) Hkeys).
    - reflexivity.
    - cbn [db]. intros r Hin E. exfalso. exact (Hold r Hin E). }
  assert (Hsel : select_cocktail cid d2 = Some (mk_cocktails_row cid name price)).
  { unfold select_cocktail. cbn.
    rewrite find_app_last, find_cocktail_absent by exact Hfresh.
    cbn. now rewrite Z.eqb_refl. }
  assert (Hperm : Permutation (index_order fst recipe) recipe)
    by apply index_order_Permutation.
  assert (Hrec : recipe_of d2 cid = index_order fst recipe).
  { assert (Hst : stored_lines d2 cid = index_order fst recipe)
      by (apply (stored_lines_new cid d1 recipe); exact Hold).
    rewrite recipe_of_intact; [exact Hst|].
    unfold recipe_intact. rewrite Hst. cbn [ingredients d2 d1 set_recipes
                                             set_cocktails].
    split; [exact Hpk|]. split.
    - apply (Permutation_NoDup (l := map fst recipe)); [|exact Hkeys].
      apply Permutation_map. now symmetry.
    - eapply Permutation_Forall; [symmetry; exact Hperm | exact Hfk]. }
  exists cid, (mk_World d2 (boxes w)).
  pose proof (read_only_get_cocktail_by_id cid (mk_World d2 (boxes w))) as Hget.
  rewrite eval_get_cocktail_by_id in Hget. cbn [db] in Hget.
  rewrite Hsel in Hget. unfold recipe_of in Hrec.
  destruct (by_id_totals d2 cid) as [[rec ta] tv]. cbn [fst] in Hrec.
  eexists. split; [exact Hadd|]. split; [exact Hget|].
  cbn [cv_id cv_name cv_price cv_recipe ck_id ck_name ck_price].
  rewrite Hrec.
  split; [reflexivity|]. split; [reflexivity|]. split; [reflexivity|].
  split; [reflexivity|]. split; [exact Hperm|].
  apply (index_order_Sorted fst recipe).
Qed.

(** X11, witness: the recipe is stored as [{2: 150, 1: 40}] and read back
    as [{1: 40, 2: 150}]. *)
Lemma add_then_get_cocktail_witness :
  exists cocktail_id w' view,
    add_cocktail "Highball" 250 [(2, 150%Q); (1, 40%Q)]
      (mk_World mojito_db [])
    = (w', Return cocktail_id)
    /\ get_cocktail_by_id cocktail_id w' = (w', Return (Some view))
    /\ cv_recipe view = [(1, 40%Q); (2, 150%Q)].
Proof.
  destruct (add_then_get_cocktail "Highball" 250 [(2, 150%Q); (1, 40%Q)]
              (mk_World mojito_db []))
    as (cid & w' & view & Hadd & Hget & _ & _ & _ & Hrec & _).
  - cbn. intros [H|[]]. discriminate H.
  - cbn. repeat constructor; cbn; intuition discriminate.
  - cbn. repeat constructor; cbn; intuition discriminate.
  - cbn. repeat constructor; cbn; tauto.
  - cbn. repeat constructor; cbn; tauto.
  - exists cid, w', view. split; [exact Hadd|]. split; [exact Hget|].
    exact Hrec.
Defined.

(** ** The keys of the schema *)

Lemma NoDup_snoc {A : Type} (l : list A) (x : A) :
  NoDup l -> ~ In x l -> NoDup (l ++ [x]).
Proof.
  induction l as [|y l IH]; cbn; intros Hnd Hx.
  - constructor; [tauto | constructor].
  - inversion Hnd as [|? ? Hy Hl]; subst. constructor.
    + rewrite in_app_iff. cbn. intuition congruence.
    + apply IH; tauto.
Qed.

Lemma identity_ids (l l' : list ingredients_row) :
  map ingredient_identity l' = map ingredient_identity l ->
  map ing_id l' = map ing_id l /\ map ing_name l' = map ing_name l.
Proof.
  revert l. induction l' as [|r' l' IH]; intros [|r l] H;
    try discriminate H; [now split|].
  cbn in H. inversion H as [[Hid Hname Ha Hv Hp Hrest]].
  destruct (IH l Hrest) as [E1 E2]. cbn.
  now rewrite Hid, Hname, E1, E2.
Qed.

Lemma op_frame_keys (w w' : World) :
  op_frame w w' -> keys_ok (db w) -> keys_ok (db w').
Proof.
  intros ((C1 & C2 & C3) & added & S & Hadded) (K1 & K2 & K3 & K4 & K5 & K6 & K7).
  destruct (identity_ids _ _ C3) as [I1 I2].
  unfold keys_ok. rewrite I1, I2, C1, C2, S.
  repeat split; try assumption.
  destruct Hadded as [->|(s & -> & Hid)].
  - now rewrite app_nil_r.
  - rewrite map_app. cbn. apply NoDup_snoc; [exact K6|].
    rewrite Hid. apply next_rowid_fresh.
Qed.

Lemma add_ingredient_keys (ingredient : Ingredient.t) (w : World) :
  keys_ok (db w) -> keys_ok (db (fst (add_ingredient ingredient w))).
Proof.
  intros (K1 & K2 & K3 & K4 & K5 & K6 & K7).
  unfold add_ingredient, insert_ingredient. unfold_monad. cbn [db].
  destruct (existsb _ (ingredients (db w))) eqn:E; cbn.
  - now repeat split.
  - unfold keys_ok. cbn. rewrite !map_app. cbn.
    repeat split; try assumption.
    + apply NoDup_snoc; [exact K1 | apply next_rowid_fresh].
    + apply NoDup_snoc; [exact K2|]. intros Hin.
      apply existsb_name_In in Hin. congruence.
Qed.

Lemma recipe_key_absent (cocktail_id i : Z) (l : list recipes_row) :
  existsb (fun r => (rc_cocktail_id r =? cocktail_id)
                    && (rc_ingredient_id r =? i)) l = false ->
  ~ In (cocktail_id, i) (map recipe_key l).
Proof.
  intros E Hin. apply in_map_iff in Hin. destruct Hin as (r & Hk & Hin).
  assert (H : existsb (fun r => (rc_cocktail_id r =? cocktail_id)
                                && (rc_ingredient_id r =? i)) l = true).
  { apply existsb_exists. exists r. split; [exact Hin|].
    unfold recipe_key in Hk. inversion Hk; subst.
    now rewrite !Z.eqb_refl. }
  congruence.
Qed.

Lemma insert_recipe_loop_keys (cocktail_id : Z) (recipe : list (Z * Q)) :
  forall w,
    lines_added cocktail_id w
      (fst (for_each recipe
              (fun '(ing_id', volume) =>
                 insert_recipe cocktail_id ing_id' volume) w)).
Proof.
  induction recipe as [|[i v] recipe IH]; intros w.
  - cbn. repeat split; auto.
  - cbn [for_each]. unfold bind at 1, insert_recipe at 1. unfold_monad.
    cbn [db].
    destruct (existsb _ (recipes (db w))) eqn:E; cbn -[lines_added].
    + repeat split; auto.
    + set (w1 := mk_World _ _).
      destruct (IH w1) as (A1 & A2 & A3 & A4 & A5).
      destruct (for_each recipe _ w1) as [w2 o]. cbn [fst] in *.
      assert (Hw2 : lines_added cocktail_id w w2).
      { unfold lines_added. subst w1. cbn in *.
        split; [exact A1|]. split; [exact A2|]. split; [exact A3|]. split.
        - intros Hnd. apply A4. rewrite map_app. cbn.
          apply NoDup_snoc; [exact Hnd|].
          now apply recipe_key_absent.
        - intros r Hin. destruct (A5 r Hin) as [Hold|Hc]; [|now right].
          apply in_app_or in Hold. destruct Hold as [Hold|[<-|[]]];
            [now left | now right]. }
      destruct o; exact Hw2.
Qed.

Lemma add_cocktail_keys (name : string) (price : Q) (recipe : list (Z * Q))
    (w : World) :
  keys_ok (db w) -> keys_ok (db (fst (add_cocktail name price recipe w))).
Proof.
  intros (K1 & K2 & K3 & K4 & K5 & K6 & K7).
  unfold add_cocktail, try_except, bind at 1, insert_cocktail.
  unfold_monad. cbn [db].
  destruct (existsb _ (cocktails (db w))) eqn:E; cbn -[keys_ok].
  - now repeat split.
  - set (cid := next_rowid (map ck_id (cocktails (db w)))).
    set (w1 := mk_World _ _).
    destruct (insert_recipe_loop_keys cid recipe w1)
      as (A1 & A2 & A3 & A4 & A5).
    assert (Hk : forall w2, lines_added cid w1 w2 -> keys_ok (db w2)).
    { intros w2 (B1 & B2 & B3 & B4 & B5). unfold keys_ok.
      rewrite B1, B2, B3. subst w1. cbn in *. rewrite !map_app. cbn.
      repeat split; try assumption.
      - apply NoDup_snoc; [exact K3 | apply next_rowid_fresh].
      - apply NoDup_snoc; [exact K4|]. intros Hin.
        apply existsb_name_In in Hin. congruence.
      - now apply B4.
      - rewrite Forall_forall in *. intros r Hin. rewrite in_app_iff.
        destruct (B5 r Hin) as [Hold|Hc].
        + left. now apply K7.
        + right. cbn. now left. }
    specialize (Hk _ (insert_recipe_loop_keys cid recipe w1)).
    destruct (for_each recipe _ w1) as [w2 [[]|e]]; cbn [fst] in *.
    + exact Hk.
    + destruct e; exact Hk.
Qed.

(** X12: every writing call of the database layer keeps the keys of the
    schema: ingredient ids and names, cocktail ids and names, the
    (cocktail, ingredient) pairs of the recipe lines and the sale ids stay
    unique, and every recipe line belongs to a stored cocktail; so they
    hold after any sequence of calls. *)
Theorem schema_keys_kept (calls : list Call) (w : World) :
  keys_ok (db w) -> keys_ok (db (exec_calls w calls)).
Proof.
  revert w. induction calls as [|c calls IH]; intros w Hk; [exact Hk|].
  cbn [exec_calls fold_left]. apply IH.
  destruct c as [ingredient|name price recipe|op]; cbn [exec_call].
  - now apply add_ingredient_keys.
  - now apply add_cocktail_keys.
  - now apply (op_frame_keys w (exec_op w op) (exec_op_frame op w)).
Qed.

Lemma schema_keys_kept_witness :
  keys_ok
    (db (exec_calls (mk_World empty_db [])
           [CallAddIngredient (Ingredient.mk None "Rum" 40 700 12 20);
            CallAddIngredient (Ingredient.mk None "Rum" 38 500 3 15);
            CallAddCocktail "Neat" 150 [(1, 50%Q); (9, 10%Q)];
            CallStock (OpSellCocktail "2024-05-01 18:00:00" 1);
            CallStock (OpSellIngredient "2024-05-01 18:05:00" 1 2)])).
Proof.
  apply schema_keys_kept.
  unfold keys_ok. cbn. repeat split; constructor.
Defined.

(** ** Listings *)

Lemma string_leb_trans (a b c : string) :
  String.leb a b = true -> String.leb b c = true -> String.leb a c = true.
Proof.
  unfold String.leb. revert b c.
  induction a as [|x a IH]; intros [|y b] [|z c]; cbn; try easy.
  destruct (Ascii.compare x y) eqn:E1; try easy;
    destruct (Ascii.compare y z) eqn:E2; try easy.
  - apply Ascii.compare_eq_iff in E1, E2. subst.
    unfold Ascii.compare. rewrite N.compare_refl. apply IH.
  - apply Ascii.compare_eq_iff in E1. subst. now rewrite E2.
  - apply Ascii.compare_eq_iff in E2. subst. now rewrite E1.
  - unfold Ascii.compare in *.
    rewrite N.compare_lt_iff in E1, E2.
    assert (E3 : (Ascii.N_of_ascii x ?= Ascii.N_of_ascii z)%N = Lt)
      by (apply N.compare_lt_iff; lia).
    now rewrite E3.
Qed.

Section SortedListing.
Context {R : Type} (key : R -> string).

Lemma insert_by_Permutation (x : R) (l : list R) :
  Permutation (insert_by key x l) (x :: l).
Proof.
  induction l as [|y l IH]; cbn; [reflexivity|].
  destruct (String.leb (key x) (key y)); [reflexivity|].
  rewrite IH. apply perm_swap.
Qed.

Lemma order_by_Permutation (l : list R) : Permutation (order_by key l) l.
Proof.
  unfold order_by. induction l as [|x l IH]; cbn; [reflexivity|].
  rewrite insert_by_Permutation. now constructor.
Qed.

Lemma insert_by_Sorted (x : R) (l : list R) :
  Sorted (fun a b => name_le (key a) (key b)) l ->
  Sorted (fun a b => name_le (key a) (key b)) (insert_by key x l).
Proof.
  induction l as [|y l IH]; cbn; intros Hs.
  - repeat constructor.
  - destruct (String.leb (key x) (key y)) eqn:E.
    + constructor; [exact Hs|]. now constructor.
    + inversion Hs as [|? ? Hl Hhd]; subst.
      constructor; [now apply IH|].
      assert (Hyx : name_le (key y) (key x)).
      { destruct (String.leb_total (key x) (key y)) as [H|H];
          [congruence | exact H]. }
      destruct l as [|z l]; cbn; [now constructor|].
      destruct (String.leb (key x) (key z)); constructor;
        [exact Hyx | now inversion Hhd].
Qed.

Lemma order_by_Sorted (l : list R) :
  Sorted (fun a b => name_le (key a) (key b)) (order_by key l).
Proof.
  unfold order_by. induction l as [|x l IH]; cbn; [constructor|].
  now apply insert_by_Sorted.
Qed.

Lemma insert_by_desc_Permutation (x : R) (l : list R) :
  Permutation (insert_by_desc key x l) (x :: l).
Proof.
  induction l as [|y l IH]; cbn; [reflexivity|].
  destruct (String.leb (key y) (key x)); [reflexivity|].
  rewrite IH. apply perm_swap.
Qed.

Lemma order_by_desc_Permutation (l : list R) :
  Permutation (order_by_desc key l) l.
Proof.
  unfold order_by_desc. induction l as [|x l IH]; cbn; [reflexivity|].
  rewrite insert_by_desc_Permutation. now constructor.
Qed.

Lemma insert_by_desc_Sorted (x : R) (l : list R) :
  Sorted (fun a b => name_le (key b) (key a)) l ->
  Sorted (fun a b => name_le (key b) (key a)) (insert_by_desc key x l).
Proof.
  induction l as [|y l IH]; cbn; intros Hs.
  - repeat constructor.
  - destruct (String.leb (key y) (key x)) eqn:E.
    + constructor; [exact Hs|]. now constructor.
    + inversion Hs as [|? ? Hl Hhd]; subst.
      constructor; [now apply IH|].
      assert (Hxy : name_le (key x) (key y)).
      { destruct (String.leb_total (key y) (key x)) as [H|H];
          [congruence | exact H]. }
      destruct l as [|z l]; cbn; [now constructor|].
      destruct (String.leb (key z) (key x)); constructor;
        [exact Hxy | now inversion Hhd].
Qed.

Lemma order_by_desc_Sorted (l : list R) :
  Sorted (fun a b => name_le (key b) (key a)) (order_by_desc key l).
Proof.
  unfold order_by_desc. induction l as [|x l IH]; cbn; [constructor|].
  now apply insert_by_desc_Sorted.
Qed.
End SortedListing.

Lemma Sorted_map {A B : Type} (f : A -> B) (RA : A -> A -> Prop)
    (RB : B -> B -> Prop) (l : list A) :
  (forall a b, RA a b -> RB (f a) (f b)) ->
  Sorted RA l -> Sorted RB (map f l).
Proof.
  intros Hf. induction 1 as [|a l Hs IH Hhd]; cbn; constructor; [exact IH|].
  destruct Hhd; cbn; constructor. now apply Hf.
Qed.

(** X13: [get_all_ingredients] changes nothing and lists every stored
    ingredient exactly once, in the byte order of the names. *)
Theorem get_all_ingredients_sorted (w : World) :
  exists listing,
    get_all_ingredients w = (w, Return listing)
    /\ Permutation listing (map Ingredient.of_row (ingredients (db w)))
    /\ Sorted ingredient_name_le listing.
Proof.
  eexists. split; [reflexivity|]. split.
  - apply Permutation_map, order_by_Permutation.
  - apply Sorted_map with (RA := fun a b => name_le (ing_name a) (ing_name b));
      [intros a b H; exact H | apply order_by_Sorted].
Qed.

Lemma firstn_Sorted {A : Type} (R : A -> A -> Prop) (n : nat) (l : list A) :
  Sorted R l -> Sorted R (firstn n l).
Proof.
  revert l. induction n as [|n IH]; intros [|x l] Hs; cbn; try constructor.
  - apply IH. now inversion Hs.
  - inversion Hs as [|? ? _ Hhd]; subst.
    destruct l as [|y l]; [destruct n; constructor|].
    destruct n; cbn; constructor. now inversion Hhd.
Qed.

Lemma firstn_In_stored {A : Type} (n : nat) (l : list A) (x : A) :
  In x (firstn n l) -> In x l.
Proof.
  revert l. induction n as [|n IH]; intros [|a l]; cbn; try tauto.
  intros [->|H]; [now left | right; now apply IH].
Qed.

Lemma firstn_In_or_later {A : Type} (R : A -> A -> Prop) (n : nat)
    (l : list A) :
  StronglySorted R l ->
  forall x y, In x (firstn n l) -> In y l -> In y (firstn n l) \/ R x y.
Proof.
  revert l. induction n as [|n IH]; intros [|a l] Hs x y Hx Hy;
    cbn in *; try contradiction.
  inversion Hs as [|? ? Hl Hall]; subst. rewrite Forall_forall in Hall.
  destruct Hy as [->|Hy]; [now left; left|].
  destruct Hx as [->|Hx].
  - right. now apply Hall.
  - destruct (IH l Hl x y Hx Hy) as [H|H]; [left; now right | now right].
Qed.

(** X14: [get_sales_report] changes nothing and returns at most 100 stored
    sales, the later date first; a stored sale that is left out is dated no
    later than any sale returned; and while there are at most 100 sales the
    report holds every one of them exactly once. *)
Theorem get_sales_report_newest_first (w : World) :
  exists report,
    get_sales_report w = (w, Return report)
    /\ (List.length report <= 100)%nat
    /\ Sorted sale_newer_eq report
    /\ (forall s, In s report -> In s (sales (db w)))
    /\ (forall s s', In s report -> In s' (sales (db w)) ->
          In s' report \/ name_le (sl_date s') (sl_date s))
    /\ ((List.length (sales (db w)) <= 100)%nat ->
        Permutation report (sales (db w))).
Proof.
  eexists. split; [reflexivity|].
  pose proof (order_by_desc_Permutation sl_date (sales (db w))) as Hperm.
  pose proof (order_by_desc_Sorted sl_date (sales (db w))) as Hsorted.
  split; [apply firstn_le_length|].
  split; [now apply firstn_Sorted|].
  split.
  - intros s Hin. apply (Permutation_in _ Hperm).
    now apply (firstn_In_stored 100).
  - split.
    + intros s s' Hs Hs'.
      apply (firstn_In_or_later sale_newer_eq 100
               (order_by_desc sl_date (sales (db w)))); [|exact Hs|].
      * apply Sorted_StronglySorted; [|exact Hsorted].
        intros a b c Hab Hbc. unfold sale_newer_eq, name_le in *.
        now apply (string_leb_trans _ (sl_date b)).
      * apply (Permutation_in _ (Permutation_sym Hperm)). exact Hs'.
    + intros Hlen. rewrite firstn_all2; [exact Hperm|].
      now rewrite (Permutation_length Hperm).
Qed.

Lemma get_sales_report_newest_first_witness :
  exists report,
    get_sales_report
      (mk_World (mk_DB [] [] []
                   [mk_sales_row 1 "ingredient" 1 2 40 "2024-05-01 18:00:00";
                    mk_sales_row 2 "cocktail" 1 1 300 "2024-05-02 09:30:00"])
                [])
    = (mk_World (mk_DB [] [] []
                   [mk_sales_row 1 "ingredient" 1 2 40 "2024-05-01 18:00:00";
                    mk_sales_row 2 "cocktail" 1 1 300 "2024-05-02 09:30:00"])
                [],
       Return report)
    /\ map sl_id report = [2; 1].
Proof.
  destruct (get_sales_report_newest_first
              (mk_World (mk_DB [] [] []
                   [mk_sales_row 1 "ingredient" 1 2 40 "2024-05-01 18:00:00";
                    mk_sales_row 2 "cocktail" 1 1 300 "2024-05-02 09:30:00"])
                []))
    as (report & Hrun & _).
  exists report. split; [exact Hrun|].
  inversion Hrun. reflexivity.
Defined.

(** ** The list of cocktails against the single read *)

Lemma totals_agree (rows : list (recipes_row * ingredients_row)) :
  forall (recipe : list (Z * Q)) (dict : list (string * Q)) (ta tv : Q),
    snd (fst (fold_left cocktail_by_id_step rows (recipe, ta, tv)))
    = fst (fst (fold_left all_cocktails_step rows (ta, tv, dict)))
    /\ snd (fold_left cocktail_by_id_step rows (recipe, ta, tv))
       = snd (fst (fold_left all_cocktails_step rows (ta, tv, dict))).
Proof.
  induction rows as [|r rows IH]; intros recipe dict ta tv.
  - now split.
  - cbn [fold_left].
    unfold cocktail_by_id_step at 2 4, all_cocktails_step at 2 4.
    apply IH.
Qed.

Lemma select_cocktail_unique (d : DB) (row : cocktails_row) :
  NoDup (map ck_id (cocktails d)) -> In row (cocktails d) ->
  select_cocktail (ck_id row) d = Some row.
Proof.
  unfold select_cocktail. induction (cocktails d) as [|x l IH]; cbn.
  - tauto.
  - intros Hnd [->|Hin].
    + now rewrite Z.eqb_refl.
    + inversion Hnd as [|? ? Hx Hl]; subst.
      destruct (Z.eqb_spec (ck_id x) (ck_id row)) as [E|_].
      * exfalso. apply Hx. rewrite E. now apply in_map.
      * now apply IH.
Qed.

Lemma all_view_fields (d : DB) (row : cocktails_row) :
  cv_id (all_view d row) = ck_id row
  /\ cv_name (all_view d row) = ck_name row
  /\ cv_price (all_view d row) = ck_price row.
Proof.
  unfold all_view. destruct (all_totals d (ck_id row)) as [[ta tv] dict].
  now repeat split.
Qed.

(** X15: [get_all_cocktails] changes nothing and lists every stored
    cocktail exactly once, in the byte order of the names; and, cocktail
    ids being unique, each entry agrees with what [get_cocktail_by_id]
    returns for its id on name, price, blended strength and volume. *)
Theorem get_all_cocktails_consistent (w : World) :
  NoDup (map ck_id (cocktails (db w))) ->
  exists views,
    get_all_cocktails w = (w, Return views)
    /\ Permutation (map cv_id views) (map ck_id (cocktails (db w)))
    /\ Sorted view_name_le views
    /\ Forall (fun view =>
         exists single,
           get_cocktail_by_id (cv_id view) w = (w, Return (Some single))
           /\ cv_name single = cv_name view
           /\ cv_price single = cv_price view
           /\ cv_alcohol_percent single = cv_alcohol_percent view
           /\ cv_volume single = cv_volume view)
         views.
Proof.
  intros Hnd. eexists. split; [apply get_all_cocktails_run|].
  split; [|split].
  - rewrite map_map.
    rewrite (map_ext _ ck_id (fun row => proj1 (all_view_fields (db w) row))).
    apply Permutation_map, order_by_Permutation.
  - apply Sorted_map with (RA := fun a b => name_le (ck_name a) (ck_name b));
      [|apply order_by_Sorted].
    intros a b H. unfold view_name_le.
    destruct (all_view_fields (db w) a) as (_ & -> & _).
    destruct (all_view_fields (db w) b) as (_ & -> & _). exact H.
  - apply Forall_map, Forall_forall. intros row Hin.
    apply order_by_In in Hin.
    destruct (all_view_fields (db w) row) as (Eid & Ename & Eprice).
    rewrite Eid, Ename, Eprice.
    rewrite (read_only_get_cocktail_by_id (ck_id row) w),
      eval_get_cocktail_by_id.
    rewrite (select_cocktail_unique (db w) row Hnd Hin).
    unfold all_view, all_totals, by_id_totals.
    destruct (totals_agree (select_recipe_join (ck_id row) (db w))
                [] [] 0%Q 0%Q) as [Ea Ev].
    destruct (fold_left cocktail_by_id_step _ _) as [[recipe ta] tv].
    destruct (fold_left all_cocktails_step _ _) as [[ta' tv'] dict].
    cbn [fst snd] in Ea, Ev. subst ta' tv'.
    eexists. split; [reflexivity|]. now repeat split.
Qed.

Lemma get_all_cocktails_consistent_witness :
  exists views,
    get_all_cocktails (mk_World ghost_db []) = (mk_World ghost_db [], Return views)
    /\ map cv_name views = ["Ghost"; "Mojito"].
Proof.
  destruct (get_all_cocktails_consistent (mk_World ghost_db []))
    as (views & Hrun & _).
  - cbn. repeat constructor; cbn; intuition discriminate.
  - exists views. split; [exact Hrun|].
    inversion Hrun. reflexivity.
Defined.

(** ** The dialog handlers *)

(** X16: [sell] of the ingredient dialog never raises.  A quantity that is
    zero or negative is turned away before the database is touched.
    Whatever the input, no ingredient reads a larger quantity afterwards
    than before, and one that was not negative stays so. *)
Theorem sell_ingredient_dialog_safe (now : string) (i quantity : Z)
    (w : World) :
  exists w',
    sell_ingredient_dialog_sell now i quantity w = (w', Return tt)
    /\ (quantity <= 0 ->
        w' = mk_World (db w)
               (boxes w ++ [showerror MsgQuantityMustBePositive]))
    /\ (forall j before,
          on_hand (db w) j = Some before ->
          exists after,
            on_hand (db w') j = Some after
            /\ after <= before
            /\ (0 <= before -> 0 <= after)).
Proof.
  unfold sell_ingredient_dialog_sell, try_except.
  destruct (Z.leb_spec quantity 0) as [Hq|Hq].
  - eexists. split; [reflexivity|]. split; [reflexivity|].
    intros j before H. exists before. cbn. split; [exact H | lia].
  - unfold sell_ingredient, bind. rewrite get_ingredient_by_id_run.
    destruct (select_ingredient i (db w)) as [row|] eqn:Hrow; cbn.
    + destruct (Z.ltb_spec (ing_quantity row) quantity) as [Hlt|Hge]; cbn.
      * eexists. split; [reflexivity|]. split; [lia|].
        intros j before H. exists before. split; [exact H | lia].
      * eexists. split; [reflexivity|]. split; [lia|].
        intros j before H. cbn [db]. unfold on_hand in *.
        change (select_ingredient j (set_sales ?d _))
          with (select_ingredient j d).
        rewrite select_after_update.
        destruct (select_ingredient j (db w)) as [r|] eqn:Hr;
          [|discriminate H].
        cbn in H. inversion H; subst before. cbn [option_map].
        eexists. split; [reflexivity|].
        destruct (Z.eq_dec j i) as [->|Hne].
        -- rewrite Hrow in Hr. inversion Hr; subst r.
           rewrite update_quantity_row_same
             by (now apply select_ingredient_id in Hrow). lia.
        -- rewrite update_quantity_row_other; [lia|].
           apply select_ingredient_id in Hr. congruence.
    + eexists. split; [reflexivity|]. split; [lia|].
      intros j before H. exists before. split; [exact H | lia].
Qed.

Lemma sell_ingredient_dialog_safe_witness :
  sell_ingredient_dialog_sell "2024-05-01 18:00:00" 1 0 (mk_World rum_db [])
  = (mk_World rum_db [showerror MsgQuantityMustBePositive], Return tt).
Proof.
  destruct (sell_ingredient_dialog_safe "2024-05-01 18:00:00" 1 0
              (mk_World rum_db []))
    as (w' & Hrun & Hguard & _).
  rewrite Hrun, (Hguard ltac:(lia)). reflexivity.
Defined.

(** X17: [restock] of the restock dialog never raises and appends no sale;
    whatever the input, no ingredient reads a smaller quantity afterwards
    than before. *)
Theorem restock_dialog_safe (i quantity : Z) (w : World) :
  exists w',
    restock_dialog_restock i quantity w = (w', Return tt)
    /\ sales (db w') = sales (db w)
    /\ (forall j before,
          on_hand (db w) j = Some before ->
          exists after, on_hand (db w') j = Some after /\ before <= after).
Proof.
  unfold restock_dialog_restock, try_except.
  destruct (Z.leb_spec quantity 0) as [Hq|Hq].
  - eexists. split; [reflexivity|]. split; [reflexivity|].
    intros j before H. exists before. cbn. split; [exact H | lia].
  - unfold restock_ingredient, bind. rewrite get_ingredient_by_id_run.
    destruct (select_ingredient i (db w)) as [row|] eqn:Hrow; cbn.
    + eexists. split; [reflexivity|]. split; [reflexivity|].
      intros j before H. cbn [db]. unfold on_hand in *.
      rewrite select_after_update.
      destruct (select_ingredient j (db w)) as [r|] eqn:Hr;
        [|discriminate H].
      cbn in H. inversion H; subst before. cbn [option_map].
      eexists. split; [reflexivity|].
      destruct (Z.eq_dec (ing_id r) i) as [E|E].
      * rewrite update_quantity_row_same by exact E. lia.
      * rewrite update_quantity_row_other by exact E. lia.
    + eexists. split; [reflexivity|]. split; [reflexivity|].
      intros j before H. exists before. split; [exact H | lia].
Qed.

Lemma restock_dialog_safe_witness :
  exists w' after,
    restock_dialog_restock 1 5 (mk_World rum_db []) = (w', Return tt)
    /\ on_hand (db w') 1 = Some after /\ 12 <= after.
Proof.
  destruct (restock_dialog_safe 1 5 (mk_World rum_db []))
    as (w' & Hrun & _ & Hup).
  destruct (Hup 1 12 eq_refl) as (after & Hafter & Hle).
  exists w', after. now repeat split.
Defined.

(** X18: [save] of the add-cocktail dialog never raises.  With an empty
    name, an empty recipe or a name already taken it leaves the database
    as it was; and the "already exists" error of [add_cocktail] is caught
    by the handler for [ValueError], so a taken name is reported with the
    "check the numbers" message. *)
Theorem add_cocktail_dialog_safe (name : string) (price : Q)
    (recipe : list (Z * Q)) (w : World) :
  exists w',
    add_cocktail_dialog_save name price recipe w = (w', Return tt)
    /\ (name = "" \/ recipe = []
        \/ In name (map ck_name (cocktails (db w))) ->
        db w' = db w)
    /\ (name <> "" -> recipe <> [] ->
        In name (map ck_name (cocktails (db w))) ->
        boxes w' = boxes w ++ [showerror MsgCheckNumbers]).
Proof.
  unfold add_cocktail_dialog_save, try_except at 1.
  destruct (String.eqb_spec name "") as [->|Hname]; cbn [orb].
  - eexists. split; [reflexivity|]. split; [reflexivity|].
    intros H. now contradiction H.
  - destruct recipe as [|line recipe].
    + eexists. split; [reflexivity|]. split; [reflexivity|].
      intros _ H. now contradiction H.
    + destruct (in_dec string_dec name (map ck_name (cocktails (db w))))
        as [Hin|Hnew].
      * assert (Hadd : add_cocktail name price (line :: recipe) w
                       = (w, Raise (ValueError (MsgCocktailExists name)))).
        { apply existsb_name_In in Hin.
          unfold add_cocktail, insert_cocktail; unfold_monad; cbn.
          rewrite Hin. reflexivity. }
        unfold bind. rewrite Hadd. cbn.
        eexists. split; [reflexivity|]. split; reflexivity.
      * unfold bind.
        destruct (add_cocktail name price (line :: recipe) w)
          as [w1 [cid|e]]; cbn.
        -- eexists. split; [reflexivity|].
           split; [intros [H|[H|H]]; [congruence | discriminate H
                                      | contradiction]|].
           intros _ _ H. contradiction.
        -- destruct e; eexists; (split; [reflexivity|]);
             (split; [intros [H|[H|H]]; [congruence | discriminate H
                                         | contradiction]|]);
             intros _ _ H; contradiction.
Qed.

Lemma add_cocktail_dialog_safe_witness :
  add_cocktail_dialog_save "Mojito" 250 [(1, 40%Q)] (mk_World mojito_db [])
  = (mk_World mojito_db [showerror MsgCheckNumbers], Return tt).
Proof.
  destruct (add_cocktail_dialog_safe "Mojito" 250 [(1, 40%Q)]
              (mk_World mojito_db []))
    as (w' & Hrun & Hdb & Hbox).
  rewrite Hrun. destruct w' as [d b]. cbn in Hdb, Hbox.
  rewrite Hdb, Hbox; try reflexivity.
  - discriminate.
  - discriminate.
  - cbn. now left.
  - right. right. cbn. now left.
Defined.

(** ** When a cocktail sale raises *)

Lemma deplete_line_cases (i : Z) (need : Q) (w : World)
    (row : ingredients_row) :
  select_ingredient i (db w) = Some row ->
  deplete_line (i, need) w
  = if Qeq_bool (ing_volume_ml row) 0
    then (w, Raise ZeroDivisionError)
    else (mk_World
            (set_ingredients (db w)
               (map (update_quantity_row (- units_taken need row) i)
                    (ingredients (db w))))
            (boxes w),
          Return tt).
Proof.
  intros Hrow. unfold deplete_line, bind.
  rewrite get_ingredient_by_id_run, Hrow.
  cbn [option_map Ingredient.of_row Ingredient.volume_ml].
  unfold units_needed, floordiv.
  destruct (Qeq_bool (ing_volume_ml row) 0); [reflexivity|].
  unfold ret at 1. rewrite update_ingredient_quantity_run. reflexivity.
Qed.

(** The depletion loop on lines whose ingredients are stored, unit volumes
    being finite: it ends normally or with a division by zero, on an
    ingredient of unit volume 0, and it leaves the sales alone. *)
Lemma deplete_loop_raises (lines : list (Z * Q)) :
  forall w,
    Forall (fun line => select_ingredient (fst line) (db w) <> None) lines ->
    loop_outcome w (for_each lines deplete_line w).
Proof.
  induction lines as [|[i need] lines IH]; intros w Hex.
  - cbn. split; [reflexivity | now left].
  - inversion Hex as [|? ? Hrow Hex']; subst. cbn [fst] in Hrow.
    destruct (select_ingredient i (db w)) as [row|] eqn:Erow;
      [clear Hrow | now contradiction Hrow].
    cbn [for_each]. unfold bind at 1.
    rewrite (deplete_line_cases i need w row Erow).
    destruct (Qeq_bool (ing_volume_ml row) 0) eqn:E.
    + cbn -[loop_outcome]. split; [reflexivity|]. right.
      split; [reflexivity|].
      exists row. split; [now apply select_ingredient_In in Erow|].
      now apply Qeq_bool_eq.
    +
      set (w1 := mk_World _ _).
      destruct (IH w1) as (S & Hout).
      * rewrite Forall_forall in *. intros line Hin. subst w1. cbn [db].
        rewrite select_after_update.
        specialize (Hex' line Hin).
        destruct (select_ingredient (fst line) (db w)); [discriminate|].
        now contradiction Hex'.
      * split; [rewrite S; reflexivity|].
        destruct Hout as [Hok|(Hraise & r & Hin & Hz)]; [now left|].
        right. split; [exact Hraise|].
        subst w1. cbn [db ingredients set_ingredients] in Hin.
        apply in_map_iff in Hin. destruct Hin as (r0 & <- & Hin0).
        exists r0. split; [exact Hin0|].
        now rewrite update_quantity_row_volume in Hz.
Qed.

(** The depletion loop shows no message box. *)
Lemma deplete_loop_boxes (lines : list (Z * Q)) :
  forall w, boxes (fst (for_each lines deplete_line w)) = boxes w.
Proof.
  induction lines as [|[i need] lines IH]; intros w; [reflexivity|].
  cbn [for_each]. unfold bind at 1.
  destruct (select_ingredient i (db w)) as [row|] eqn:Erow.
  - rewrite (deplete_line_cases i need w row Erow).
    destruct (Qeq_bool (ing_volume_ml row) 0); [reflexivity|].
    now rewrite IH.
  - unfold deplete_line, bind. rewrite get_ingredient_by_id_run, Erow.
    reflexivity.
Qed.

(** X19: when [sell_cocktail] raises, the cocktail is stored and every
    line of its recipe had passed the availability test, no message box is
    shown and no sale is recorded; and when the exception is the division
    by zero of the unit computation, some stored ingredient has unit
    volume 0.  The quantities already taken for earlier lines of the
    recipe are not given back. *)
Theorem sell_cocktail_raise (now : string) (cocktail_id : Z) (w w' : World)
    (e : Exn) :
  sell_cocktail now cocktail_id w = (w', Raise e) ->
  select_cocktail cocktail_id (db w) <> None
  /\ Forall (line_ok (db w)) (recipe_of (db w) cocktail_id)
  /\ boxes w' = boxes w
  /\ sales (db w') = sales (db w)
  /\ (e = ZeroDivisionError ->
      exists r, In r (ingredients (db w)) /\ (ing_volume_ml r == 0)%Q).
Proof.
  unfold sell_cocktail, bind at 1.
  destruct (get_cocktail_by_id_cases cocktail_id w)
    as [[_ Hrun] | (row & view & Hrow & Hrun & Hrec & _)]; rewrite Hrun.
  - cbn. intros H; discriminate H.
  - unfold bind at 1.
    rewrite (check_cocktail_availability_found cocktail_id w row Hrow).
    destruct (lines_verdict_cases (db w) (recipe_of (db w) cocktail_id))
      as [[Hall Hv] | (passed & line & rest & _ & _ & _ & Hv)]; rewrite Hv.
    + cbn [negb]. rewrite Hrec.
      destruct (deplete_loop_raises (recipe_of (db w) cocktail_id) w
                  (line_ok_stored _ _ Hall))
        as (S & Hout).
      pose proof (deplete_loop_boxes (recipe_of (db w) cocktail_id) w) as B.
      unfold bind at 1.
      destruct (for_each (recipe_of (db w) cocktail_id) deplete_line w)
        as [w1 o]. cbn [fst snd] in S, Hout, B.
      destruct Hout as [->|(-> & Hzero)].
      * cbn. intros H; discriminate H.
      * intros H. inversion H; subst.
        split; [congruence|]. split; [exact Hall|]. split; [exact B|].
        split; [exact S|]. intros _. exact Hzero.
    + cbn. intros H; discriminate H.
Qed.

(** X19, witness: the second ingredient of the recipe has unit volume 0;
    the first goes from 12 to 11 and no sale is recorded. *)
Lemma sell_cocktail_raise_witness :
  exists w',
    sell_cocktail "2024-05-01 18:00:00" 1 (mk_World zero_unit_db [])
    = (w', Raise ZeroDivisionError)
    /\ sales (db w') = []
    /\ boxes w' = []
    /\ on_hand zero_unit_db 1 = Some 12
    /\ on_hand (db w') 1 = Some 11.
Proof.
  eexists. split; [reflexivity|].
  destruct (sell_cocktail_raise "2024-05-01 18:00:00" 1
              (mk_World zero_unit_db []) _ ZeroDivisionError eq_refl)
    as (_ & _ & B & S & _).
  split; [exact S|]. split; [exact B|]. split; reflexivity.
Defined.
